(** * Verification of the retrieval-and-answer core of rag-search

    Shallow embedding of [services/qa_engine.py], [services/utils.py],
    [services/langchain_flow.py] and [test2.py].

    Python [str] values are modelled as lists of characters; the model
    covers the ASCII range, where Python's [str.isspace] holds exactly for
    the codes 9-13 and 28-32 and [\d] matches exactly '0'..'9'.
    Relevance scores and similarities (Python floats) are modelled as
    rationals: the code only compares them and averages two constants. *)

From Stdlib Require Import String Ascii List Bool Arith Lia QArith.
From Stdlib Require Import Sorted Permutation.
From Equations Require Import Equations.
Import ListNotations.

Open Scope nat_scope.
Open Scope list_scope.

(* ------------------------------------------------------------------ *)
(** ** Text *)

Definition text := list ascii.

(** A Python string literal, as a character list. *)
Definition T (s : string) : text := list_ascii_of_string s.

Definition nl : ascii := ascii_of_nat 10.
Definition space : ascii := " "%char.

(** Python [str.isspace] on the ASCII range. *)
Definition is_space (c : ascii) : bool :=
  let n := nat_of_ascii c in
  ((9 <=? n) && (n <=? 13)) || ((28 <=? n) && (n <=? 32)).

(** [str.lstrip()] / [str.rstrip()] / [str.strip()] with no argument. *)
Fixpoint lstrip (s : text) : text :=
  match s with
  | [] => []
  | c :: t => if is_space c then lstrip t else s
  end.

Definition rstrip (s : text) : text := rev (lstrip (rev s)).

Definition py_strip (s : text) : text := rstrip (lstrip s).

(* ------------------------------------------------------------------ *)
(** ** [fix_line_breaks] (qa_engine.py)

<<
def fix_line_breaks(text: str) -> str:
    if not isinstance(text, str):
        return ""
    return re.sub(r"(?<!\n)\n(?!\n)", " ", text).strip()
>>
    The argument is a [str] in the model, so the [isinstance] guard never
    fires.  [re.sub] tests the look-behind and the look-ahead against the
    original string, so each newline is decided by its two neighbours in
    the input; [prev_nl] carries whether the previous input character was
    a newline. *)

Definition is_nl (c : ascii) : bool := Ascii.eqb c nl.

Definition next_is_nl (s : text) : bool :=
  match s with
  | c :: _ => is_nl c
  | [] => false
  end.

Fixpoint sub_single_newlines (prev_nl : bool) (s : text) : text :=
  match s with
  | [] => []
  | c :: t =>
      (if is_nl c && negb prev_nl && negb (next_is_nl t) then space else c)
        :: sub_single_newlines (is_nl c) t
  end.

Definition fix_line_breaks (s : text) : text :=
  py_strip (sub_single_newlines false s).

(* ------------------------------------------------------------------ *)
(** ** [remove_citation_markers] (utils.py)

<<
def remove_citation_markers(text: str) -> str:
    return re.sub(r"\[doc\d+\]", "", text)
>>
    [re.sub] scans left to right; at each position it tries the pattern,
    drops the match and resumes after it, or keeps one character and
    moves on.  [\d+] is greedy and no digit is [']'], so the pattern
    matches at a position iff the text there is "[doc", one or more
    digits, "]". *)

Definition is_digit (c : ascii) : bool :=
  let n := nat_of_ascii c in (48 <=? n) && (n <=? 57).

Fixpoint span_digits (s : text) : text * text :=
  match s with
  | [] => ([], [])
  | c :: t =>
      if is_digit c then let (d, r) := span_digits t in (c :: d, r)
      else ([], s)
  end.

(** [Some rest] when [\[doc\d+\]] matches at the head of [s]. *)
Definition match_marker (s : text) : option text :=
  match s with
  | a :: b :: c :: d :: r =>
      if Ascii.eqb a "[" && Ascii.eqb b "d" && Ascii.eqb c "o"
         && Ascii.eqb d "c"
      then
        match span_digits r with
        | (_ :: _, e :: rest) => if Ascii.eqb e "]" then Some rest else None
        | _ => None
        end
      else None
  | _ => None
  end.

Lemma span_digits_length s d r :
  span_digits s = (d, r) -> length s = length d + length r.
Proof.
  revert d r; induction s as [|c t IH]; simpl; intros d r H.
  - injection H as <- <-; reflexivity.
  - destruct (is_digit c).
    + destruct (span_digits t) as [d' r'] eqn:E.
      injection H as <- <-. simpl. rewrite (IH _ _ eq_refl). reflexivity.
    + injection H as <- <-; reflexivity.
Qed.

Lemma match_marker_shorter s rest :
  match_marker s = Some rest -> length rest < length s.
Proof.
  unfold match_marker.
  destruct s as [|a [|b [|c [|d r]]]]; try discriminate.
  destruct (_ && _); [|discriminate].
  destruct (span_digits r) as [[|x ds] [|e rest']] eqn:E; try discriminate.
  destruct (Ascii.eqb e "]"); [|discriminate].
  intros H; injection H as <-.
  apply span_digits_length in E. simpl in *. lia.
Qed.

(** Match on a value while keeping the equation that names it. *)
Definition inspect {A : Type} (x : A) : { y : A | x = y } :=
  exist _ x eq_refl.

Equations? remove_citation_markers (s : text) : text
  by wf (length s) lt :=
  remove_citation_markers [] := [];
  remove_citation_markers (c :: t) with inspect (match_marker (c :: t)) := {
    | exist _ (Some rest) H => remove_citation_markers rest;
    | exist _ None _ => c :: remove_citation_markers t }.
Proof.
  apply (match_marker_shorter (c :: t)); exact H.
Defined.

Lemma remove_citation_markers_cons c t :
  remove_citation_markers (c :: t) =
  match match_marker (c :: t) with
  | Some rest => remove_citation_markers rest
  | None => c :: remove_citation_markers t
  end.
Proof.
  simp remove_citation_markers.
  destruct (inspect (match_marker (c :: t))) as [[rest|] E];
    simp remove_citation_markers; rewrite E; reflexivity.
Qed.

Lemma remove_citation_markers_length s :
  length (remove_citation_markers s) <= length s.
Proof.
  remember (length s) as n eqn:En. revert s En.
  induction n as [n IH] using lt_wf_ind; intros [|c t] En; subst n;
    [simp remove_citation_markers; reflexivity|].
  rewrite remove_citation_markers_cons.
  destruct (match_marker (c :: t)) as [rest|] eqn:M.
  - pose proof (match_marker_shorter _ _ M).
    specialize (IH (length rest) ltac:(lia) rest eq_refl). lia.
  - simpl in *. specialize (IH (length t) ltac:(lia) t eq_refl). lia.
Qed.

(** No suffix of [s] starts with a [\[docN\]] marker. *)
Definition marker_free (s : text) : Prop :=
  forall i, match_marker (skipn i s) = None.

Lemma remove_citation_markers_free s :
  marker_free s -> remove_citation_markers s = s.
Proof.
  induction s as [|c t IH]; intros F;
    [simp remove_citation_markers; reflexivity|].
  rewrite remove_citation_markers_cons.
  rewrite (F 0 : match_marker (c :: t) = None).
  f_equal. apply IH. intros i. exact (F (S i)).
Qed.

Lemma remove_citation_markers_shorter s i rest :
  match_marker (skipn i s) = Some rest ->
  length (remove_citation_markers s) < length s.
Proof.
  revert i rest.
  remember (length s) as n eqn:En. revert s En.
  induction n as [n IH] using lt_wf_ind; intros [|c t] En i r Hi.
  - destruct i; discriminate.
  - rewrite remove_citation_markers_cons.
    destruct (match_marker (c :: t)) as [rest|] eqn:M.
    + pose proof (match_marker_shorter _ _ M).
      pose proof (remove_citation_markers_length rest). simpl in *. lia.
    + destruct i as [|j]; [cbn [skipn] in Hi; congruence|].
      simpl in *.
      specialize (IH (length t) ltac:(lia) t eq_refl j r Hi). lia.
Qed.

Lemma remove_citation_markers_fixpoint_iff s :
  remove_citation_markers s = s <-> marker_free s.
Proof.
  split.
  - intros E i. destruct (match_marker (skipn i s)) as [r|] eqn:M; [|reflexivity].
    apply remove_citation_markers_shorter in M. rewrite E in M. lia.
  - apply remove_citation_markers_free.
Qed.

(** Whether an optional character is a newline. *)
Definition opt_is_nl (o : option ascii) : bool :=
  match o with Some c => is_nl c | None => false end.

(** What [re.sub(r"(?<!\n)\n(?!\n)", " ", _)] writes at position [i] of
    [s], given whether the character before [s] is a newline. *)
Definition sub_at (prev_nl : bool) (s : text) (i : nat) : option ascii :=
  let before := match i with 0 => prev_nl | S j => opt_is_nl (nth_error s j) end in
  let after := opt_is_nl (nth_error s (S i)) in
  option_map
    (fun c => if is_nl c && negb before && negb after then space else c)
    (nth_error s i).

Lemma sub_single_newlines_length p s :
  length (sub_single_newlines p s) = length s.
Proof.
  revert p; induction s as [|c t IH]; intros p; simpl; [reflexivity|].
  now rewrite IH.
Qed.

Lemma sub_single_newlines_nth p s i :
  nth_error (sub_single_newlines p s) i = sub_at p s i.
Proof.
  revert p i; induction s as [|c t IH]; intros p i.
  - destruct i; reflexivity.
  - destruct i as [|j]; simpl.
    + unfold sub_at; simpl. destruct t; reflexivity.
    + rewrite IH. unfold sub_at. simpl. destruct j; reflexivity.
Qed.

Definition all_space (s : text) : bool := forallb is_space s.

Lemma lstrip_split s : exists pre, s = pre ++ lstrip s /\ all_space pre = true.
Proof.
  induction s as [|c t [pre [E A]]]; simpl.
  - exists []; split; reflexivity.
  - destruct (is_space c) eqn:Sc.
    + exists (c :: pre). simpl. rewrite Sc, A. split; [now f_equal|reflexivity].
    + exists []. split; reflexivity.
Qed.

Lemma lstrip_head s :
  match lstrip s with [] => True | c :: _ => is_space c = false end.
Proof.
  induction s as [|c t IH]; simpl; [exact I|].
  destruct (is_space c) eqn:Sc; [exact IH|exact Sc].
Qed.

Lemma rstrip_split s : exists post, s = rstrip s ++ post /\ all_space post = true.
Proof.
  destruct (lstrip_split (rev s)) as [pre [E A]].
  exists (rev pre). unfold rstrip. split.
  - rewrite <- rev_app_distr, <- E, rev_involutive. reflexivity.
  - unfold all_space in *. rewrite forallb_forall in *.
    intros x Hx. apply A. apply in_rev. exact Hx.
Qed.

Lemma rstrip_last s d :
  match rstrip s with [] => True | _ => is_space (last (rstrip s) d) = false end.
Proof.
  unfold rstrip. pose proof (lstrip_head (rev s)) as H.
  destruct (lstrip (rev s)) as [|c u]; simpl; [exact I|].
  rewrite last_last. destruct (rev u ++ [c]) eqn:E; [|exact H].
  destruct (rev u); discriminate.
Qed.

Lemma lstrip_snoc_nonspace l c :
  is_space c = false -> exists u, lstrip (l ++ [c]) = u ++ [c].
Proof.
  intros Sc. induction l as [|a l [u IH]]; simpl.
  - rewrite Sc. exists []. reflexivity.
  - destruct (is_space a).
    + exists u. exact IH.
    + exists (a :: l). reflexivity.
Qed.

Lemma rstrip_keeps_head c t :
  is_space c = false -> exists u, rstrip (c :: t) = c :: u.
Proof.
  intros Sc. unfold rstrip. simpl.
  destruct (lstrip_snoc_nonspace (rev t) c Sc) as [u E].
  rewrite E, rev_app_distr. exists (rev u). reflexivity.
Qed.

(** Neither the first nor the last character is whitespace. *)
Definition nonspace_ends (u : text) : Prop :=
  match u with
  | [] => True
  | c :: _ => is_space c = false /\ is_space (last u c) = false
  end.

Lemma py_strip_split s :
  exists pre post,
    s = pre ++ py_strip s ++ post /\ all_space pre = true /\
    all_space post = true /\ nonspace_ends (py_strip s).
Proof.
  destruct (lstrip_split s) as [pre [E1 A1]].
  destruct (rstrip_split (lstrip s)) as [post [E2 A2]].
  exists pre, post. unfold py_strip.
  split; [rewrite <- E2; exact E1|]. split; [exact A1|]. split; [exact A2|].
  pose proof (lstrip_head s) as H.
  destruct (lstrip s) as [|c t]; [exact I|].
  destruct (rstrip_keeps_head c t H) as [u E]. rewrite E. split; [exact H|].
  pose proof (rstrip_last (c :: t) c) as L. rewrite E in L. exact L.
Qed.

(* ------------------------------------------------------------------ *)
(** ** Python values, exceptions and effects *)

(** The values the answer functions return: [None], [[]] or a [str]. *)
Inductive PyVal : Type :=
| VNone
| VEmptyList
| VStr (s : text).

(** A raised exception: a Python built-in or SDK exception (class name and
    [str(e)]), or FastAPI's [HTTPException(status_code, detail)]. *)
Inductive Exc : Type :=
| PyExc (cls : string) (msg : text)
| HTTPException (status_code : Z) (detail : text).

Fixpoint text_of_uint (u : Decimal.uint) : text :=
  match u with
  | Decimal.Nil => []
  | Decimal.D0 u => "0"%char :: text_of_uint u
  | Decimal.D1 u => "1"%char :: text_of_uint u
  | Decimal.D2 u => "2"%char :: text_of_uint u
  | Decimal.D3 u => "3"%char :: text_of_uint u
  | Decimal.D4 u => "4"%char :: text_of_uint u
  | Decimal.D5 u => "5"%char :: text_of_uint u
  | Decimal.D6 u => "6"%char :: text_of_uint u
  | Decimal.D7 u => "7"%char :: text_of_uint u
  | Decimal.D8 u => "8"%char :: text_of_uint u
  | Decimal.D9 u => "9"%char :: text_of_uint u
  end.

(** [str(n)] for a Python [int]. *)
Definition str_nat (n : nat) : text := text_of_uint (Nat.to_uint n).

Definition str_Z (z : Z) : text :=
  if (z <? 0)%Z then "-"%char :: str_nat (Z.to_nat (- z)) else str_nat (Z.to_nat z).

(** [str(e)]; Starlette renders an [HTTPException] as "<code>: <detail>". *)
Definition exc_str (e : Exc) : text :=
  match e with
  | PyExc _ msg => msg
  | HTTPException code detail =>
      str_Z code ++ T ": " ++ detail
  end.

Inductive Outcome (A : Type) : Type :=
| Ok (a : A)
| Raise (e : Exc).
Arguments Ok {A} a.
Arguments Raise {A} e.

(** Calls to external services, in the order they are made. *)
Inductive Call : Type :=
| CallEmbedQuery          (** [embeddings.embed_query] (Azure OpenAI) *)
| CallSearch (index : string)  (** [search_client_<index>.search] *)
| CallRetrieve (index : string)  (** [retriever_<index>.invoke] (LangChain) *)
| CallLLM                 (** [openai_client.chat.completions.create] *)
| CallEncode              (** [model.encode] (SentenceTransformer) *)
| CallCacheGet            (** [faq_collection.get] *)
| CallCacheAdd            (** [faq_collection.add] *)
| CallCacheQuery.         (** [faq_collection.query] *)

(** A ChromaDB record of [faq_collection]: id, metadata, embedding. *)
Record Entry : Type := {
  e_id : text;
  e_question : text;
  e_answer : text;
  e_emb : list Q
}.

(** The process state the code touches: the persistent FAQ collection and
    the log of external calls. *)
Record World : Type := {
  store : list Entry;
  calls : list Call
}.

Definition log (c : Call) (w : World) : World :=
  {| store := store w; calls := calls w ++ [c] |}.

(** State and exception monad. *)
Definition M (A : Type) : Type := World -> Outcome A * World.

Definition ret {A} (a : A) : M A := fun w => (Ok a, w).

Definition bind {A B} (m : M A) (k : A -> M B) : M B :=
  fun w => match m w with
           | (Ok a, w') => k a w'
           | (Raise e, w') => (Raise e, w')
           end.

Definition raise {A} (e : Exc) : M A := fun w => (Raise e, w).

(** [try: m except Exception as e: h(e)] *)
Definition catch {A} (m : M A) (h : Exc -> M A) : M A :=
  fun w => match m w with
           | (Ok a, w') => (Ok a, w')
           | (Raise e, w') => h e w'
           end.

(** An external call: logged, then returns or raises as the service does. *)
Definition ext {A} (c : Call) (r : Outcome A) : M A :=
  fun w => (r, log c w).

Notation "x <- m ;; k" := (bind m (fun x => k))
  (at level 61, m at next level, right associativity).

(* ------------------------------------------------------------------ *)
(** ** Retrieval (qa_engine.py) *)

(** A hit of [SearchClient.search]: its ["@search.score"] and the other
    fields of the index document. *)
Record SearchDoc : Type := {
  search_score : Q;
  doc_fields : list (string * text)
}.

(** The dict [{"score": ..., "content": ...}] built per hit. *)
Record Passage : Type := {
  score : Q;
  content : text
}.

Fixpoint lookup_field (k : string) (fs : list (string * text)) : option text :=
  match fs with
  | [] => None
  | (k', v) :: fs' => if String.eqb k k' then Some v else lookup_field k fs'
  end.

(** [result[content_field]], raising [KeyError] when the field is absent. *)
Definition get_field (d : SearchDoc) (k : string) : M text :=
  match lookup_field k (doc_fields d) with
  | Some v => ret v
  | None => raise (PyExc "KeyError" (T "'" ++ T k ++ T "'"))
  end.

Fixpoint _process_search_results (results : list SearchDoc)
    (content_field : string) : M (list Passage) :=
  match results with
  | [] => ret []
  | r :: rs =>
      c <- get_field r content_field ;;
      ps <- _process_search_results rs content_field ;;
      ret ({| score := search_score r; content := c |} :: ps)
  end.

(** [sorted(xs, key=key, reverse=True)]: Python's sort is stable also with
    [reverse=True], so items with equal keys keep their input order.  Each
    item is inserted after every already placed item whose key is at
    least its own. *)
Fixpoint insert_desc {A} (key : A -> Q) (x : A) (l : list A) : list A :=
  match l with
  | [] => [x]
  | y :: l' =>
      if Qle_bool (key x) (key y) then y :: insert_desc key x l'
      else x :: y :: l'
  end.

Definition sorted_desc {A} (key : A -> Q) (xs : list A) : list A :=
  fold_left (fun acc x => insert_desc key x acc) xs [].

Definition is_empty {A} (l : list A) : bool :=
  match l with [] => true | _ => false end.

(** [res["score"] >= 0.5] *)
Definition above_threshold (p : Passage) : bool := Qle_bool (1 # 2) (score p).

(** Lines 197-201: [sorted(..., key=score, reverse=True)], the filter
    [score >= 0.5], and the slice [[:3]]. *)
Definition fuse (combined_results : list Passage) : list Passage :=
  firstn 3 (filter above_threshold (sorted_desc score combined_results)).

(** Lines 207-210: [context_for_llm += f"--- Excerpt {i} ---\n{...}\n\n"]
    over [enumerate(top_results, 1)]. *)
Fixpoint assemble_from (i : nat) (ps : list Passage) : text :=
  match ps with
  | [] => []
  | p :: ps' =>
      T "--- Excerpt " ++ str_nat i ++ T " ---" ++ [nl]
        ++ fix_line_breaks (content p) ++ [nl; nl] ++ assemble_from (S i) ps'
  end.

Definition assemble_context (top_results : list Passage) : text :=
  assemble_from 1 top_results.

(* ------------------------------------------------------------------ *)
(** ** Answer generation (qa_engine.py, [get_llm_answer]) *)

(** [str.find(needle) >= 0], i.e. Python's [needle in hay]. *)
Fixpoint is_prefix (p s : text) : bool :=
  match p, s with
  | [], _ => true
  | _ :: _, [] => false
  | a :: p', b :: s' => Ascii.eqb a b && is_prefix p' s'
  end.

Fixpoint contains (needle hay : text) : bool :=
  is_prefix needle hay ||
  match hay with
  | [] => false
  | _ :: hay' => contains needle hay'
  end.

Definition dq : ascii := ascii_of_nat 34.

Definition NO_ANSWER_FOUND : text := T "NO_ANSWER_FOUND".

Definition system_prompt : text :=
  [nl] ++ T "    You are a helpful AI assistant. Answer the user's question using ONLY the provided CONTEXT below." ++ [nl]
  ++ T "    - Focus on providing an answer that is directly relevant to the user's question." ++ [nl]
  ++ T "    - If the context contains unrelated or extra information, IGNORE it and do not include it in your answer." ++ [nl]
  ++ T "    - If the information in the context is not sufficient to answer the question, respond with "
  ++ [dq] ++ NO_ANSWER_FOUND ++ [dq] ++ T "." ++ [nl]
  ++ T "    - Be concise and professional. Do not cite the source file for the information you use." ++ [nl]
  ++ T "    - Always answer in the SAME LANGUAGE as the question. If the question is in Thai, answer in Thai. If in English, answer in English." ++ [nl]
  ++ T "    ".

Definition user_prompt (context query : text) : text :=
  T "CONTEXT:" ++ [nl] ++ T "---" ++ [nl] ++ context ++ [nl] ++ T "---" ++ [nl; nl]
  ++ T "QUESTION: " ++ query ++ [nl; nl] ++ T "ANSWER:".

(** An [AzureOpenAI] client, seen through the one call the code makes:
    system and user prompt in, [choices[0].message.content] out ([None]
    when the message has no content), or an exception. *)
Definition Client : Type := text -> text -> Outcome (option text).

Definition attribute_error_strip : Exc :=
  PyExc "AttributeError" (T "'NoneType' object has no attribute 'strip'").

Definition get_llm_answer (query context : text) (openai_client : Client)
    : M PyVal :=
  if is_empty context || is_empty (py_strip context) then ret VNone
  else
    catch
      (content <- ext CallLLM (openai_client system_prompt (user_prompt context query)) ;;
       match content with
       | None => raise attribute_error_strip
       | Some raw =>
           let answer := py_strip raw in
           if contains NO_ANSWER_FOUND answer || is_empty answer
           then ret VEmptyList
           else ret (VStr answer)
       end)
      (fun e => ret (VStr (T "Error generating answer: " ++ exc_str e))).

(* ------------------------------------------------------------------ *)
(** ** The pipelines *)

(** A LangChain [Document]: page content and the metadata the code reads
    and writes (["@search.score"] and ["source_index"]). *)
Record Document : Type := {
  page_content : text;
  meta_search_score : option Q;
  meta_source_index : option string
}.

Definition set_source_index (ix : string) (d : Document) : Document :=
  {| page_content := page_content d;
     meta_search_score := meta_search_score d;
     meta_source_index := Some ix |}.

(** [d.metadata.get("@search.score", 0)] *)
Definition doc_score (d : Document) : Q :=
  match meta_search_score d with Some s => s | None => 0 end.

Section Pipelines.

(** The module-level clients of [services/client.py]: the embedding
    client, the two Azure Search clients (text and pdf index) and the two
    LangChain retrievers; each returns or raises. *)
Variable embed_query : text -> Outcome (list Q).
Variable search_client_text : list Q -> Outcome (list SearchDoc).
Variable search_client_pdf : list Q -> Outcome (list SearchDoc).
Variable retriever_pdf : text -> Outcome (list Document).
Variable retriever_text : text -> Outcome (list Document).
(** [config.azure_search_index_doc] and [config.azure_search_index_txt]. *)
Variables azure_search_index_doc azure_search_index_txt : string.

(** [rag_pipeline] (qa_engine.py, lines 174-222). *)
Definition rag_pipeline (question : text) (openai_client : Client) : M PyVal :=
  catch
    (question_emb <- ext CallEmbedQuery (embed_query question) ;;
     text_results <- ext (CallSearch "text") (search_client_text question_emb) ;;
     pdf_results <- ext (CallSearch "pdf") (search_client_pdf question_emb) ;;
     combined_text <- _process_search_results text_results "content" ;;
     combined_pdf <- _process_search_results pdf_results "chunk" ;;
     let top_results := fuse (combined_text ++ combined_pdf) in
     if is_empty top_results then ret VEmptyList
     else
       final_answer <- get_llm_answer question (assemble_context top_results)
                         openai_client ;;
       match final_answer with
       | VNone => ret VEmptyList
       | v => ret v
       end)
    (fun e => raise (HTTPException 500 (T "Internal error: " ++ exc_str e))).

(** [retrieve_and_rank] (langchain_flow.py, lines 58-87). *)
Definition retrieve_and_rank (question : text) (top_k : nat) : M (list Document) :=
  catch
    (results_pdf <- ext (CallRetrieve "pdf") (retriever_pdf question) ;;
     results_text <- ext (CallRetrieve "text") (retriever_text question) ;;
     let combined_results :=
       map (set_source_index azure_search_index_doc) results_pdf
         ++ map (set_source_index azure_search_index_txt) results_text in
     ret (firstn top_k (sorted_desc doc_score combined_results)))
    (fun _ => ret []).

(** The [/aisearch] endpoint of [routers/search.py] (lines 53-68): the
    pipeline's value becomes [AnswerResponse(text=...)], whose field
    accepts a [str] or a [list[str]]; a [None] fails pydantic validation.
    Every exception is replaced by one fixed [HTTPException]. *)
Inductive AnswerText : Type :=
| AText (s : text)
| AList (l : list text).

Record AnswerResponse : Type := { response_text : AnswerText }.

Definition answer_response (v : PyVal) : M AnswerResponse :=
  match v with
  | VStr s => ret {| response_text := AText s |}
  | VEmptyList => ret {| response_text := AList [] |}
  | VNone => raise (PyExc "ValidationError" (T "validation errors for AnswerResponse"))
  end.

Definition ai_search (question : text) (openai_client : Client) : M AnswerResponse :=
  catch
    (final_answer <- rag_pipeline question openai_client ;;
     answer_response final_answer)
    (fun _ => raise (HTTPException 500
       (T "An internal error occurred while processing your request."))).

End Pipelines.

(* ------------------------------------------------------------------ *)
(** ** The FAQ cache (test2.py) *)

Definition text_eqb (a b : text) : bool :=
  if list_eq_dec ascii_dec a b then true else false.

Definition Qltb (x y : Q) : bool := negb (Qle_bool y x).

(** [str.split()] with no argument: the maximal runs of non-whitespace;
    [cur] holds the current word, reversed. *)
Fixpoint py_split_aux (cur : text) (s : text) : list text :=
  match s with
  | [] => if is_empty cur then [] else [rev cur]
  | c :: t =>
      if is_space c then
        if is_empty cur then py_split_aux [] t else rev cur :: py_split_aux [] t
      else py_split_aux (c :: cur) t
  end.

Definition py_split (s : text) : list text := py_split_aux [] s.

Definition nonspace (c : ascii) : bool := negb (is_space c).

(** The default [thresholds] dict, in insertion (= iteration) order. *)
Definition default_thresholds : list ((nat * nat) * Q) :=
  [((0, 5), 75 # 100); ((6, 15), 80 # 100); ((16, 1000), 85 # 100)].

Fixpoint first_bucket (length : nat) (ts : list ((nat * nat) * Q)) : Q :=
  match ts with
  | [] => 65 # 100
  | ((min_len, max_len), thr) :: ts' =>
      if (min_len <=? length) && (length <=? max_len) then thr
      else first_bucket length ts'
  end.

Definition get_threshold_by_length (t : text)
    (thresholds : option (list ((nat * nat) * Q))) : Q :=
  let ts := match thresholds with
            | None => default_thresholds
            | Some ts => ts
            end in
  first_bucket (List.length (py_split t)) ts.

Section Cache.

(** [model.encode] (raises or returns a vector), [util.cos_sim] on two
    vectors, the nearest-neighbour [faq_collection.query(..., n_results=1)]
    over the stored records, and whether [faq_collection.add] raises on a
    given store and record. *)
Variable encode : text -> Outcome (list Q).
Variable cos_sim : list Q -> list Q -> Q.
Variable chroma_query : list Entry -> list Q -> Outcome (list Entry).
Variable chroma_add_error : list Entry -> Entry -> option Exc.

(** [faq_collection.get(ids=[question])["ids"]]: the records with that id. *)
Definition cache_get (question : text) : M (list Entry) :=
  fun w => (Ok (filter (fun e => text_eqb (e_id e) question) (store w)),
            log CallCacheGet w).

(** [faq_collection.add(...)]: appends the record, or raises. *)
Definition cache_add (e : Entry) : M unit :=
  fun w =>
    match chroma_add_error (store w) e with
    | Some ex => (Raise ex, log CallCacheAdd w)
    | None => (Ok tt, {| store := store w ++ [e]; calls := calls w ++ [CallCacheAdd] |})
    end.

Definition cache_query (emb : list Q) : M (list Entry) :=
  fun w => (chroma_query (store w) emb, log CallCacheQuery w).

(** [add_faq] (lines 28-46). *)
Definition add_faq (question answer : text) : M bool :=
  catch
    (existing <- cache_get question ;;
     if negb (is_empty existing) then ret false
     else
       embedding <- ext CallEncode (encode question) ;;
       _ <- cache_add {| e_id := question; e_question := question;
                         e_answer := answer; e_emb := embedding |} ;;
       ret true)
    (fun _ => ret false).

(** [find_similar_faq] (lines 63-110); [None] is Python's [None]. *)
Definition find_similar_faq (user_question : text) : M (option text) :=
  catch
    (query_emb <- ext CallEncode (encode user_question) ;;
     results <- cache_query query_emb ;;
     match results with
     | [] => ret None
     | m :: _ =>
         let similarity := cos_sim query_emb (e_emb m) in
         let thr_user := get_threshold_by_length user_question None in
         let thr_db := get_threshold_by_length (e_question m) None in
         let threshold := ((thr_user + thr_db) / 2)%Q in
         if Qltb similarity (-1)%Q || Qltb 1 similarity then ret None
         else if Qle_bool threshold similarity then ret (Some (e_answer m))
         else ret None
     end)
    (fun _ => ret None).

(** The insertion loop of the script's [__main__]:
    [for question, answer in faqs: add_faq(question, answer)]. *)
Fixpoint add_faqs (faqs : list (text * text)) (w : World) : World :=
  match faqs with
  | [] => w
  | (question, answer) :: faqs' => add_faqs faqs' (snd (add_faq question answer w))
  end.

End Cache.

(* ------------------------------------------------------------------ *)
(** ** Context formatting (langchain_flow.py) and source lists *)

(** [f"Source: {doc.metadata.get('source_index', 'unknown')}\n{doc.page_content}"] *)
Definition doc_block (d : Document) : text :=
  T "Source: "
    ++ T (match meta_source_index d with Some ix => ix | None => "unknown" end)
    ++ [nl] ++ page_content d.

(** [sep.join(xs)] *)
Fixpoint py_join (sep : text) (xs : list text) : text :=
  match xs with
  | [] => []
  | [x] => x
  | x :: xs' => x ++ sep ++ py_join sep xs'
  end.

Definition document_separator : text :=
  [nl; nl] ++ T "--- Document ---" ++ [nl; nl].

(** [format_docs] (lines 39-49). *)
Definition format_docs (docs : list Document) : text :=
  if is_empty docs then []
  else py_join document_separator (map doc_block docs).

(** One element of the [citations] list: its ["title"] and ["filepath"]
    entries ([None] when absent). *)
Record Citation : Type := {
  cit_title : option text;
  cit_filepath : option text
}.

(** [x or default] for an optional [str]: [None] and [""] are false. *)
Definition py_or (x : option text) (default : text) : text :=
  match x with
  | Some ((_ :: _) as s) => s
  | _ => default
  end.

(** [c.get("title") or c.get("filepath") or "Unknown Source"] *)
Definition citation_title (c : Citation) : text :=
  py_or (cit_title c) (py_or (cit_filepath c) (T "Unknown Source")).

(** The loop of [ask_question] ([routers/search.py] lines 34-38,
    [ai_search_main.py] lines 53-57 and 83-88):
    [if title not in sources: sources.append(title)]. *)
Fixpoint collect_sources_from (sources : list text) (citations : list Citation)
    : list text :=
  match citations with
  | [] => sources
  | c :: cs =>
      let title := citation_title c in
      collect_sources_from
        (if existsb (text_eqb title) sources then sources else sources ++ [title]) cs
  end.

Definition collect_sources (citations : list Citation) : list text :=
  collect_sources_from [] citations.

(** Python's [\u0e00 <= c <= \u0e7f], the Thai block.  No character of
    the ASCII range the model covers lies in it. *)
Definition is_thai (c : ascii) : bool :=
  (3584 <=? nat_of_ascii c) && (nat_of_ascii c <=? 3711).

Definition insufficient_info_en : text :=
  T "I don't have sufficient information in the documents to answer this question.".

Section Chain.

(** The two LangChain retrievers and the index names, as in [Pipelines];
    [llm_chain context question] is [chain.invoke(inputs)] for the chain
    built at lines 113-124 and [inputs = {"context": context, "question":
    question}], returning the parsed model output or raising;
    [thai_apology] is the Thai literal returned for a Thai question, kept
    abstract (it is not ASCII). *)
Variable retriever_pdf : text -> Outcome (list Document).
Variable retriever_text : text -> Outcome (list Document).
Variables azure_search_index_doc azure_search_index_txt : string.
Variable llm_chain : text -> text -> Outcome text.
Variable thai_apology : text.

(** [generate_answer] (langchain_flow.py, lines 90-135); [top_k]
    defaults to 5. *)
Definition generate_answer (question : text) : M text :=
  catch
    (ranked_docs <- retrieve_and_rank retriever_pdf retriever_text
                      azure_search_index_doc azure_search_index_txt question 5 ;;
     let context := format_docs ranked_docs in
     if is_empty (py_strip context) then
       if existsb is_thai question then ret thai_apology
       else ret insufficient_info_en
     else ext CallLLM (llm_chain context question))
    (fun e => ret (T "[Error][generate_answer] " ++ exc_str e)).

End Chain.

(** [l1] is [l2] with some elements deleted. *)
Inductive subseq {A : Type} : list A -> list A -> Prop :=
| subseq_nil : subseq [] []
| subseq_keep x l1 l2 : subseq l1 l2 -> subseq (x :: l1) (x :: l2)
| subseq_drop x l1 l2 : subseq l1 l2 -> subseq l1 (x :: l2).

(** Every newline of [u] has a newline right before or right after it. *)
Definition no_isolated_nl (u : text) : Prop :=
  forall i, nth_error u i = Some nl ->
    match i with 0 => False | S j => nth_error u j = Some nl end \/
    nth_error u (S i) = Some nl.

(* ------------------------------------------------------------------ *)
(** ** Concrete inputs *)

(** One search hit with a single content field. *)
Definition hit (s : Q) (field : string) (c : string) : SearchDoc :=
  {| search_score := s; doc_fields := [(field, T c)] |}.

Definition passage (s : Q) (c : string) : Passage :=
  {| score := s; content := T c |}.

(** Index A holds the passages scored 0.9 and 0.7, index B those scored
    0.3 and 0.6; [field] is the content field of the index searched. *)
Definition index_A (field : string) : list SearchDoc :=
  [hit (9 # 10) field "passage A one"; hit (7 # 10) field "passage A two"].

Definition index_B (field : string) : list SearchDoc :=
  [hit (3 # 10) field "passage B one"; hit (6 # 10) field "passage B two"].

Definition empty_world : World := {| store := []; calls := [] |}.

Definition const_embedding : text -> Outcome (list Q) := fun _ => Ok [1%Q].

(** A model that answers with the user prompt it receives. *)
Definition echo_client : Client := fun _ user => Ok (Some user).

Definition index_down : Exc := PyExc "HttpResponseError" (T "Service unavailable").

Definition context_1 : text := T "--- Excerpt 1 ---" ++ [nl] ++ T "RAG is retrieval augmented generation." ++ [nl; nl].

Definition jeans_entry : Entry :=
  {| e_id := T "How to care for jeans";
     e_question := T "How to care for jeans";
     e_answer := T "Wash with cold water, avoid direct sunlight, and use mild detergent";
     e_emb := [1%Q] |}.

Definition jeans_world : World := {| store := [jeans_entry]; calls := [] |}.

(** A collection whose nearest-neighbour query returns its first record. *)
Definition first_record (st : list Entry) (_ : list Q) : Outcome (list Entry) :=
  Ok (firstn 1 st).

(** [util.cos_sim] of two equal float32 unit vectors, which rounding can
    put just above 1 (1.0000001). *)
Definition cos_sim_rounded (_ _ : list Q) : Q := 10000001 # 10000000.

Definition rate_limited : Exc := PyExc "RateLimitError" (T "Error code: 429").

(** A retrieved LangChain document with its search score. *)
Definition doc (c : string) (s : option Q) : Document :=
  {| page_content := T c; meta_search_score := s; meta_source_index := None |}.

(* ------------------------------------------------------------------ *)
(** ** Ranking lemmas *)

Section Ranking.

Context {A : Type} (key : A -> Q).

(** [x] ranks at least as high as [y]. *)
Definition ranks_before (x y : A) : Prop := (key y <= key x)%Q.

Lemma insert_desc_perm x l : Permutation (insert_desc key x l) (x :: l).
Proof.
  induction l as [|y l IH]; simpl; [reflexivity|].
  destruct (Qle_bool (key x) (key y)); [|reflexivity].
  rewrite IH. apply perm_swap.
Qed.

Lemma insert_desc_sorted x l :
  StronglySorted ranks_before l -> StronglySorted ranks_before (insert_desc key x l).
Proof.
  induction l as [|y l IH]; intros S; simpl.
  - repeat constructor.
  - apply StronglySorted_inv in S as [Sl Fy].
    destruct (Qle_bool (key x) (key y)) eqn:E.
    + apply Qle_bool_iff in E. constructor; [now apply IH|].
      rewrite Forall_forall in *. intros z Hz.
      apply (Permutation_in _ (insert_desc_perm x l)) in Hz as [<-|Hz].
      * exact E.
      * now apply Fy.
    + assert (Lt : (key y < key x)%Q).
      { apply Qnot_le_lt. intros H. apply Qle_bool_iff in H. congruence. }
      constructor; [constructor; assumption|].
      constructor; [unfold ranks_before; apply Qlt_le_weak; exact Lt|].
      rewrite Forall_forall in *. intros z Hz. specialize (Fy z Hz).
      unfold ranks_before in *. apply Qlt_le_weak. eapply Qle_lt_trans; eauto.
Qed.

Lemma sorted_desc_fold_perm xs acc :
  Permutation (fold_left (fun acc x => insert_desc key x acc) xs acc) (acc ++ xs).
Proof.
  revert acc; induction xs as [|x xs IH]; intros acc; simpl.
  - now rewrite app_nil_r.
  - rewrite IH, insert_desc_perm. apply Permutation_middle.
Qed.

Lemma sorted_desc_perm xs : Permutation (sorted_desc key xs) xs.
Proof. apply sorted_desc_fold_perm. Qed.

Lemma sorted_desc_sorted xs : StronglySorted ranks_before (sorted_desc key xs).
Proof.
  unfold sorted_desc.
  assert (H : forall acc, StronglySorted ranks_before acc ->
    StronglySorted ranks_before (fold_left (fun acc x => insert_desc key x acc) xs acc)).
  { induction xs as [|x xs IH]; intros acc S; simpl; [exact S|].
    apply IH, insert_desc_sorted, S. }
  apply H. constructor.
Qed.

Lemma filter_sorted (f : A -> bool) l :
  StronglySorted ranks_before l -> StronglySorted ranks_before (filter f l).
Proof.
  induction l as [|x l IH]; intros S; simpl; [constructor|].
  apply StronglySorted_inv in S as [Sl Fx].
  destruct (f x); [|now apply IH].
  constructor; [now apply IH|].
  rewrite Forall_forall in *. intros z Hz. apply filter_In in Hz as [Hz _].
  now apply Fx.
Qed.

Lemma firstn_sorted n l :
  StronglySorted ranks_before l -> StronglySorted ranks_before (firstn n l).
Proof.
  revert l; induction n as [|n IH]; intros [|x l] S; simpl; try constructor.
  - apply StronglySorted_inv in S as [Sl Fx]. now apply IH.
  - apply StronglySorted_inv in S as [Sl Fx].
    rewrite Forall_forall in *. intros z Hz. apply Fx.
    rewrite <- (firstn_skipn n l). apply in_or_app. now left.
Qed.

Lemma sorted_app_before l1 l2 :
  StronglySorted ranks_before (l1 ++ l2) ->
  forall x y, In x l1 -> In y l2 -> ranks_before x y.
Proof.
  induction l1 as [|a l1 IH]; intros S x y Hx Hy; [destruct Hx|].
  simpl in S. apply StronglySorted_inv in S as [S Fa].
  destruct Hx as [<-|Hx].
  - rewrite Forall_forall in Fa. apply Fa, in_or_app; now right.
  - now apply IH.
Qed.

End Ranking.

Lemma Permutation_filter_same {A} (f : A -> bool) l l' :
  Permutation l l' -> Permutation (filter f l) (filter f l').
Proof.
  induction 1; simpl.
  - constructor.
  - destruct (f x); [constructor|]; assumption.
  - destruct (f x), (f y); try constructor; try reflexivity.
  - etransitivity; eassumption.
Qed.

Lemma firstn_full_when_rest {A} n (l : list A) :
  skipn n l = [] \/ length (firstn n l) = n.
Proof.
  destruct (skipn n l) eqn:E; [now left|right].
  rewrite length_firstn. pose proof (length_skipn n l) as L.
  rewrite E in L. simpl in L. lia.
Qed.

(** The calls made between two worlds include no language-model call. *)
Definition no_llm_call_since (w w' : World) : Prop :=
  exists made, calls w' = calls w ++ made /\ ~ In CallLLM made.

Lemma process_search_results_ok ds field w :
  Forall (fun d => lookup_field field (doc_fields d) <> None) ds ->
  exists ps, _process_search_results ds field w = (Ok ps, w) /\
             map score ps = map search_score ds.
Proof.
  induction 1 as [|d ds Hd _ [ps [E M]]]; [exists []; split; reflexivity|].
  simpl. unfold get_field, bind.
  destruct (lookup_field field (doc_fields d)) as [c|]; [|congruence].
  unfold ret at 1. rewrite E.
  eexists; split; [reflexivity|]. simpl. now rewrite M.
Qed.

Lemma fuse_all_below l :
  Forall (fun p => (score p < 1 # 2)%Q) l -> fuse l = [].
Proof.
  intros F. unfold fuse.
  assert (E : filter above_threshold (sorted_desc score l) = []).
  { remember (sorted_desc score l) as s eqn:Es.
    assert (Fs : Forall (fun p => (score p < 1 # 2)%Q) s).
    { rewrite Forall_forall in *. intros p Hp. apply F.
      rewrite Es in Hp. eapply Permutation_in; [apply sorted_desc_perm|exact Hp]. }
    clear Es F. induction Fs as [|p s Hp _ IH]; [reflexivity|].
    simpl. unfold above_threshold.
    destruct (Qle_bool (1 # 2) (score p)) eqn:B; [|exact IH].
    apply Qle_bool_iff in B. exfalso. apply (Qlt_not_le _ _ Hp B). }
  now rewrite E.
Qed.

Lemma scores_below ps ds :
  map score ps = map search_score ds ->
  Forall (fun d => (search_score d < 1 # 2)%Q) ds ->
  Forall (fun p => (score p < 1 # 2)%Q) ps.
Proof.
  intros M F. apply Forall_map with (f := score) (P := fun s => (s < 1 # 2)%Q).
  rewrite M. apply Forall_map. exact F.
Qed.

Lemma is_prefix_spec p s : is_prefix p s = true <-> exists b, s = p ++ b.
Proof.
  revert s; induction p as [|a p IH]; intros s; simpl.
  - split; [intros _; now exists s|reflexivity].
  - destruct s as [|c s].
    + split; [discriminate|intros [b E]; discriminate].
    + rewrite andb_true_iff, IH, Ascii.eqb_eq. split.
      * intros [-> [b ->]]. now exists b.
      * intros [b E]. injection E as -> ->. split; [reflexivity|]. now exists b.
Qed.

Lemma contains_spec n s : contains n s = true <-> exists a b, s = a ++ n ++ b.
Proof.
  induction s as [|c s IH]; simpl; rewrite orb_true_iff, is_prefix_spec.
  - split.
    + intros [[b E]|F]; [|discriminate]. exists [], b. exact E.
    + intros [a [b E]]. left. exists b. destruct a; [exact E|discriminate].
  - rewrite IH. split.
    + intros [[b E]|[a [b E]]].
      * exists [], b. exact E.
      * exists (c :: a), b. rewrite E. reflexivity.
    + intros [[|x a] [b E]].
      * left. exists b. exact E.
      * right. injection E as _ E. exists a, b. exact E.
Qed.

Lemma contains_rev n s : contains n s = true -> contains (rev n) (rev s) = true.
Proof.
  rewrite !contains_spec. intros [a [b ->]].
  exists (rev b), (rev a). now rewrite !rev_app_distr, app_assoc.
Qed.

Lemma contains_lstrip c n s :
  is_space c = false -> contains (c :: n) s = true ->
  contains (c :: n) (lstrip s) = true.
Proof.
  intros Sc. induction s as [|x s IH]; intros H; [exact H|].
  simpl. destruct (is_space x) eqn:Sx; [|exact H].
  apply IH. simpl in H. apply orb_true_iff in H as [H|H]; [|exact H].
  apply andb_true_iff in H as [E _]. apply Ascii.eqb_eq in E. congruence.
Qed.

Lemma contains_sentinel_strip s :
  contains NO_ANSWER_FOUND s = true -> contains NO_ANSWER_FOUND (py_strip s) = true.
Proof.
  intros H. unfold py_strip, rstrip.
  apply contains_lstrip in H; [|reflexivity].
  apply contains_rev in H. apply (contains_lstrip "D"%char) in H; [|reflexivity].
  apply contains_rev in H. exact H.
Qed.

Lemma all_space_strip s : all_space s = true -> py_strip s = [].
Proof.
  intros H. unfold py_strip.
  assert (E : lstrip s = []).
  { induction s as [|c s IH]; [reflexivity|].
    simpl in *. apply andb_true_iff in H as [Hc Hs]. rewrite Hc. now apply IH. }
  now rewrite E.
Qed.

Lemma strip_nonempty_context (context : text) :
  is_empty (py_strip context) = false -> is_empty context = false.
Proof. destruct context; [discriminate|reflexivity]. Qed.

Lemma py_strip_empty_iff s : is_empty (py_strip s) = all_space s.
Proof.
  destruct (all_space s) eqn:A; [now rewrite all_space_strip|].
  destruct (py_strip_split s) as [pre [post [E [A1 [A2 _]]]]].
  destruct (py_strip s) eqn:P; [|reflexivity]. exfalso.
  rewrite E in A. unfold all_space in *. rewrite !forallb_app, A1, A2 in A.
  discriminate.
Qed.

Lemma blank_context s : is_empty s || is_empty (py_strip s) = all_space s.
Proof.
  destruct s as [|c t]; [reflexivity|].
  change (is_empty (c :: t)) with false. cbn [orb]. apply py_strip_empty_iff.
Qed.

Lemma get_llm_answer_result query context openai_client w :
  exists v,
    get_llm_answer query context openai_client w
      = (Ok v, if all_space context then w else log CallLLM w) /\
    (v = VNone <-> all_space context = true).
Proof.
  unfold get_llm_answer. rewrite blank_context.
  destruct (all_space context).
  - exists VNone. split; [reflexivity|tauto].
  - unfold catch, bind, ext, raise, ret.
    destruct (openai_client system_prompt (user_prompt context query)) as [[raw|]|e].
    + destruct (contains NO_ANSWER_FOUND (py_strip raw) || is_empty (py_strip raw));
        eexists; (split; [reflexivity|split; discriminate]).
    + eexists; (split; [reflexivity|split; discriminate]).
    + eexists; (split; [reflexivity|split; discriminate]).
Qed.

Lemma assemble_context_not_blank ps : ps <> [] -> all_space (assemble_context ps) = false.
Proof. destruct ps; [congruence|reflexivity]. Qed.

Lemma rag_pipeline_after_fusion
    (embed_query : text -> Outcome (list Q))
    (search_client_text search_client_pdf : list Q -> Outcome (list SearchDoc))
    (question : text) (openai_client : Client) (w : World) (v : list Q)
    (text_hits pdf_hits : list SearchDoc) (pt pp : list Passage) :
  embed_query question = Ok v ->
  search_client_text v = Ok text_hits ->
  search_client_pdf v = Ok pdf_hits ->
  (forall w', _process_search_results text_hits "content" w' = (Ok pt, w')) ->
  (forall w', _process_search_results pdf_hits "chunk" w' = (Ok pp, w')) ->
  fuse (pt ++ pp) <> [] ->
  rag_pipeline embed_query search_client_text search_client_pdf question openai_client w
  = get_llm_answer question (assemble_context (fuse (pt ++ pp))) openai_client
      (log (CallSearch "pdf") (log (CallSearch "text") (log CallEmbedQuery w))).
Proof.
  intros Hemb Htext Hpdf Hpt Hpp Hne.
  set (w3 := log (CallSearch "pdf") (log (CallSearch "text") (log CallEmbedQuery w))).
  destruct (get_llm_answer_result question (assemble_context (fuse (pt ++ pp)))
              openai_client w3) as [a [Ea Na]].
  rewrite assemble_context_not_blank in Ea, Na by exact Hne.
  unfold rag_pipeline, catch, bind, ext.
  rewrite Hemb, Htext, Hpdf. fold w3. rewrite Hpt, Hpp. cbn zeta.
  destruct (is_empty (fuse (pt ++ pp))) eqn:Em.
  { destruct (fuse (pt ++ pp)); [contradiction|discriminate]. }
  rewrite Ea. destruct a; [|reflexivity|reflexivity].
  exfalso. apply proj1 in Na. discriminate (Na eq_refl).
Qed.

(* ================================================================== *)
(** * Claims *)

(** C1: the fusion step of [rag_pipeline] ranks, filters and truncates:
    its output is sorted by descending score, holds only passages scored
    at least 0.5, at most 3 of them, and together with the passages it
    drops is a permutation of all passages scored at least 0.5, none of
    the dropped ones ranking above a kept one, and passages are dropped
    only when 3 are kept.  On the spec's example (0.9 and 0.7 from index
    A, 0.3 and 0.6 from index B) it keeps 0.9, 0.7, 0.6 in that order,
    whichever index is searched first, and [rag_pipeline] hands the
    model exactly the context built from those three. *)
Theorem fusion_ranks_filters_truncates :
  (forall combined_results : list Passage,
     let r := fuse combined_results in
     StronglySorted (ranks_before score) r /\
     (forall p, In p r -> (1 # 2 <= score p)%Q) /\
     length r <= 3 /\
     exists dropped,
       Permutation (filter above_threshold combined_results) (r ++ dropped) /\
       (forall p q, In p r -> In q dropped -> (score q <= score p)%Q) /\
       (dropped = [] \/ length r = 3)) /\
  (let expected := [passage (9 # 10) "passage A one";
                    passage (7 # 10) "passage A two";
                    passage (6 # 10) "passage B two"] in
   fuse [passage (9 # 10) "passage A one"; passage (3 # 10) "passage B one";
         passage (7 # 10) "passage A two"; passage (6 # 10) "passage B two"]
     = expected /\
   fst (rag_pipeline const_embedding (fun _ => Ok (index_A "content"))
          (fun _ => Ok (index_B "chunk")) (T "What is it?") echo_client empty_world)
     = Ok (VStr (py_strip (user_prompt (assemble_context expected) (T "What is it?")))) /\
   fst (rag_pipeline const_embedding (fun _ => Ok (index_B "content"))
          (fun _ => Ok (index_A "chunk")) (T "What is it?") echo_client empty_world)
     = Ok (VStr (py_strip (user_prompt (assemble_context expected) (T "What is it?"))))).
Proof.
  split; [|vm_compute; repeat split].
  intros combined_results r.
  set (f := filter above_threshold (sorted_desc score combined_results)).
  assert (Sf : StronglySorted (ranks_before score) f)
    by apply filter_sorted, sorted_desc_sorted.
  assert (Er : r = firstn 3 f) by reflexivity.
  split; [rewrite Er; now apply firstn_sorted|].
  split.
  { intros p Hp. rewrite Er in Hp.
    rewrite <- (firstn_skipn 3 f) in Sf.
    assert (Hf : In p f) by (rewrite <- (firstn_skipn 3 f); apply in_or_app; now left).
    apply filter_In in Hf as [_ Hp']. apply Qle_bool_iff. exact Hp'. }
  split; [rewrite Er; apply firstn_le_length|].
  exists (skipn 3 f). rewrite Er, firstn_skipn.
  split; [symmetry; apply Permutation_filter_same, sorted_desc_perm|].
  split.
  - rewrite <- (firstn_skipn 3 f) in Sf. intros p q Hp Hq.
    exact (sorted_app_before score _ _ Sf p q Hp Hq).
  - apply firstn_full_when_rest.
Qed.

(** C2 (as the code behaves): a failing index aborts the whole retrieval.
    If the embedding succeeds and then either index's search raises [e],
    [rag_pipeline] raises [HTTPException(500, "Internal error: " + str(e))]
    and makes no language-model call: the other index's passages are not
    used.  In [retrieve_and_rank], a failure of either retriever makes the
    whole result the empty list. *)
Theorem index_failure_aborts_retrieval
    (embed_query : text -> Outcome (list Q))
    (search_client_text search_client_pdf : list Q -> Outcome (list SearchDoc))
    (question : text) (openai_client : Client) (v : list Q) (e : Exc) (w : World)
    (Hemb : embed_query question = Ok v)
    (Hfail : search_client_text v = Raise e \/
             exists d, search_client_text v = Ok d /\ search_client_pdf v = Raise e) :
  fst (rag_pipeline embed_query search_client_text search_client_pdf question
         openai_client w)
    = Raise (HTTPException 500 (T "Internal error: " ++ exc_str e)) /\
  no_llm_call_since w
    (snd (rag_pipeline embed_query search_client_text search_client_pdf question
            openai_client w)) /\
  (forall (retriever_pdf retriever_text : text -> Outcome (list Document))
          (ix_doc ix_txt : string) (top_k : nat) (e' : Exc),
     retriever_pdf question = Raise e' \/ retriever_text question = Raise e' ->
     fst (retrieve_and_rank retriever_pdf retriever_text ix_doc ix_txt question
            top_k w) = Ok []).
Proof.
  unfold rag_pipeline, catch, bind, ext. rewrite Hemb.
  split; [|split].
  - destruct Hfail as [H|[d [H1 H2]]]; [rewrite H|rewrite H1, H2]; reflexivity.
  - destruct Hfail as [H|[d [H1 H2]]]; [rewrite H|rewrite H1, H2]; simpl.
    + exists [CallEmbedQuery; CallSearch "text"].
      split; [unfold log; simpl; now rewrite <- ?app_assoc|]. simpl. intuition discriminate.
    + exists [CallEmbedQuery; CallSearch "text"; CallSearch "pdf"].
      split; [unfold log; simpl; now rewrite <- ?app_assoc|]. simpl. intuition discriminate.
  - intros rp rt ixd ixt k e' H. unfold retrieve_and_rank, catch, bind, ext.
    destruct (rp question) as [dp|ep]; [|reflexivity].
    destruct H as [H|H]; [discriminate|]. rewrite H. reflexivity.
Qed.

(** C3: when every retrieved passage scores below 0.5, [rag_pipeline]
    returns the no-answer value [[]] without calling the language model,
    so its result and its effects are the same for every model. *)
Theorem empty_fusion_skips_llm
    (embed_query : text -> Outcome (list Q))
    (search_client_text search_client_pdf : list Q -> Outcome (list SearchDoc))
    (question : text) (v : list Q) (text_hits pdf_hits : list SearchDoc)
    (Hemb : embed_query question = Ok v)
    (Htext : search_client_text v = Ok text_hits)
    (Hpdf : search_client_pdf v = Ok pdf_hits)
    (Ftext : Forall (fun d => lookup_field "content" (doc_fields d) <> None) text_hits)
    (Fpdf : Forall (fun d => lookup_field "chunk" (doc_fields d) <> None) pdf_hits)
    (Below : Forall (fun d => (search_score d < 1 # 2)%Q) (text_hits ++ pdf_hits)) :
  forall (client1 client2 : Client) (w : World),
    rag_pipeline embed_query search_client_text search_client_pdf question client1 w
    = rag_pipeline embed_query search_client_text search_client_pdf question client2 w /\
    fst (rag_pipeline embed_query search_client_text search_client_pdf question client1 w)
    = Ok VEmptyList /\
    no_llm_call_since w
      (snd (rag_pipeline embed_query search_client_text search_client_pdf question
              client1 w)).
Proof.
  intros client1 client2 w.
  set (w3 := log (CallSearch "pdf") (log (CallSearch "text") (log CallEmbedQuery w))).
  destruct (process_search_results_ok text_hits "content" w3 Ftext) as [pt [Et Mt]].
  destruct (process_search_results_ok pdf_hits "chunk" w3 Fpdf) as [pp [Ep Mp]].
  assert (Fu : fuse (pt ++ pp) = []).
  { apply fuse_all_below, (scores_below _ (text_hits ++ pdf_hits)).
    - rewrite !map_app, Mt, Mp. reflexivity.
    - exact Below. }
  assert (R : forall c : Client,
    rag_pipeline embed_query search_client_text search_client_pdf question c w
    = (Ok VEmptyList, w3)).
  { intros c. unfold rag_pipeline, catch, bind, ext.
    rewrite Hemb, Htext, Hpdf. fold w3. rewrite Et, Ep. rewrite Fu. reflexivity. }
  rewrite !R. split; [reflexivity|]. split; [reflexivity|].
  exists [CallEmbedQuery; CallSearch "text"; CallSearch "pdf"].
  split; [unfold w3; simpl; now rewrite <- ?app_assoc|].
  simpl. intuition discriminate.
Qed.

(** C4: once the model has been called (the context is not blank), an
    output that contains NO_ANSWER_FOUND anywhere, or that is empty or
    whitespace-only, makes [get_llm_answer] return the no-answer value
    [[]]. *)
Theorem sentinel_or_blank_output_is_no_answer
    (query context : text) (openai_client : Client) (raw : text) (w : World)
    (Hctx : is_empty (py_strip context) = false)
    (Hout : openai_client system_prompt (user_prompt context query) = Ok (Some raw))
    (Hraw : contains NO_ANSWER_FOUND raw = true \/ all_space raw = true) :
  fst (get_llm_answer query context openai_client w) = Ok VEmptyList.
Proof.
  unfold get_llm_answer. rewrite Hctx, (strip_nonempty_context _ Hctx). simpl.
  unfold catch, bind, ext. rewrite Hout.
  destruct Hraw as [H|H].
  - rewrite (contains_sentinel_strip _ H). reflexivity.
  - rewrite (all_space_strip _ H), orb_true_r. reflexivity.
Qed.

(** C5 (as the code behaves): when the model call raises [e] on a
    context that is not blank, [get_llm_answer] catches it and returns the
    ordinary string "Error generating answer: " + str(e); it raises
    nothing and does not return the no-answer values [None] or [[]].
    [rag_pipeline] passes this string on as its answer: whenever both
    searches succeed, the fusion keeps at least one passage and the model
    call on the assembled excerpts raises [e], the pipeline returns that
    same string (no [HTTPException], no [[]]) after exactly one model
    call. *)
Theorem llm_exception_becomes_error_string (openai_client : Client) (e : Exc) :
  (forall (query context : text) (w : World),
     is_empty (py_strip context) = false ->
     openai_client system_prompt (user_prompt context query) = Raise e ->
     fst (get_llm_answer query context openai_client w)
       = Ok (VStr (T "Error generating answer: " ++ exc_str e))) /\
  (forall (embed_query : text -> Outcome (list Q))
          (search_client_text search_client_pdf : list Q -> Outcome (list SearchDoc))
          (question : text) (w : World) (v : list Q)
          (text_hits pdf_hits : list SearchDoc) (pt pp : list Passage),
     embed_query question = Ok v ->
     search_client_text v = Ok text_hits ->
     search_client_pdf v = Ok pdf_hits ->
     (forall w', _process_search_results text_hits "content" w' = (Ok pt, w')) ->
     (forall w', _process_search_results pdf_hits "chunk" w' = (Ok pp, w')) ->
     fuse (pt ++ pp) <> [] ->
     openai_client system_prompt
       (user_prompt (assemble_context (fuse (pt ++ pp))) question) = Raise e ->
     let r := rag_pipeline embed_query search_client_text search_client_pdf question
                openai_client w in
     fst r = Ok (VStr (T "Error generating answer: " ++ exc_str e)) /\
     calls (snd r)
       = calls w ++ [CallEmbedQuery; CallSearch "text"; CallSearch "pdf"; CallLLM]).
Proof.
  assert (Hllm : forall query context w,
     is_empty (py_strip context) = false ->
     openai_client system_prompt (user_prompt context query) = Raise e ->
     get_llm_answer query context openai_client w
       = (Ok (VStr (T "Error generating answer: " ++ exc_str e)), log CallLLM w)).
  { intros query context w Hctx Hraise.
    unfold get_llm_answer. rewrite Hctx, (strip_nonempty_context _ Hctx). simpl.
    unfold catch, bind, ext. rewrite Hraise. reflexivity. }
  split.
  - intros query context w Hctx Hraise. now rewrite (Hllm query context w Hctx Hraise).
  - intros embed_query search_client_text search_client_pdf question w v
      text_hits pdf_hits pt pp Hemb Htext Hpdf Hpt Hpp Hne Hraise. cbn zeta.
    rewrite (rag_pipeline_after_fusion embed_query search_client_text
               search_client_pdf question openai_client w v text_hits pdf_hits pt pp
               Hemb Htext Hpdf Hpt Hpp Hne).
    rewrite Hllm; [|rewrite py_strip_empty_iff; now apply assemble_context_not_blank
                   |exact Hraise].
    split; [reflexivity|]. cbn. now rewrite <- !app_assoc.
Qed.

Lemma index_failure_aborts_retrieval_witness :
  fst (rag_pipeline const_embedding (fun _ => Raise index_down)
         (fun _ => Ok (index_A "chunk")) (T "What is it?") echo_client empty_world)
    = Raise (HTTPException 500 (T "Internal error: " ++ exc_str index_down)).
Proof.
  apply (proj1 (index_failure_aborts_retrieval const_embedding
    (fun _ => Raise index_down) (fun _ => Ok (index_A "chunk")) (T "What is it?")
    echo_client [1%Q] index_down empty_world eq_refl (or_introl eq_refl))).
Defined.

(** C2 fails: index "text" raises while index "pdf" returns two passages
    above the threshold; [rag_pipeline] raises [HTTPException] 500, while
    with the failing index returning nothing it would answer from the pdf
    passages. *)
Lemma partial_index_failure_not_tolerated :
  fst (rag_pipeline const_embedding (fun _ => Raise index_down)
         (fun _ => Ok (index_A "chunk")) (T "What is it?") echo_client empty_world)
    = Raise (HTTPException 500 (T "Internal error: Service unavailable")) /\
  fst (rag_pipeline const_embedding (fun _ => Ok [])
         (fun _ => Ok (index_A "chunk")) (T "What is it?") echo_client empty_world)
    = Ok (VStr (py_strip (user_prompt
          (assemble_context [passage (9 # 10) "passage A one";
                             passage (7 # 10) "passage A two"])
          (T "What is it?")))).
Proof. split; vm_compute; reflexivity. Qed.

Lemma empty_fusion_skips_llm_witness :
  fst (rag_pipeline const_embedding (fun _ => Ok [hit (3 # 10) "content" "low one"])
         (fun _ => Ok [hit (2 # 5) "chunk" "low two"]) (T "What is it?")
         echo_client empty_world) = Ok VEmptyList.
Proof.
  refine (proj1 (proj2 (empty_fusion_skips_llm const_embedding
    (fun _ => Ok [hit (3 # 10) "content" "low one"])
    (fun _ => Ok [hit (2 # 5) "chunk" "low two"]) (T "What is it?") [1%Q]
    [hit (3 # 10) "content" "low one"] [hit (2 # 5) "chunk" "low two"]
    eq_refl eq_refl eq_refl _ _ _ echo_client echo_client empty_world))).
  - repeat constructor. vm_compute. discriminate.
  - repeat constructor. vm_compute. discriminate.
  - repeat constructor; vm_compute; reflexivity.
Defined.

Lemma sentinel_or_blank_output_is_no_answer_witness :
  fst (get_llm_answer (T "What is RAG?") context_1
         (fun _ _ => Ok (Some (T " I am sorry: NO_ANSWER_FOUND (context too thin). ")))
         empty_world) = Ok VEmptyList.
Proof.
  apply (sentinel_or_blank_output_is_no_answer (T "What is RAG?") context_1
    (fun _ _ => Ok (Some (T " I am sorry: NO_ANSWER_FOUND (context too thin). ")))
    (T " I am sorry: NO_ANSWER_FOUND (context too thin). ") empty_world).
  - vm_compute. reflexivity.
  - reflexivity.
  - left. vm_compute. reflexivity.
Defined.

Lemma llm_exception_becomes_error_string_witness :
  fst (get_llm_answer (T "What is RAG?") context_1 (fun _ _ => Raise rate_limited)
         empty_world)
    = Ok (VStr (T "Error generating answer: " ++ exc_str rate_limited)) /\
  fst (rag_pipeline const_embedding (fun _ => Ok (index_A "content"))
         (fun _ => Ok (index_B "chunk")) (T "What is RAG?")
         (fun _ _ => Raise rate_limited) empty_world)
    = Ok (VStr (T "Error generating answer: " ++ exc_str rate_limited)) /\
  calls (snd (rag_pipeline const_embedding (fun _ => Ok (index_A "content"))
         (fun _ => Ok (index_B "chunk")) (T "What is RAG?")
         (fun _ _ => Raise rate_limited) empty_world))
    = calls empty_world ++ [CallEmbedQuery; CallSearch "text"; CallSearch "pdf"; CallLLM].
Proof.
  split.
  - apply (proj1 (llm_exception_becomes_error_string (fun _ _ => Raise rate_limited)
      rate_limited) (T "What is RAG?") context_1 empty_world).
    + vm_compute. reflexivity.
    + reflexivity.
  - apply (proj2 (llm_exception_becomes_error_string (fun _ _ => Raise rate_limited)
      rate_limited) const_embedding (fun _ => Ok (index_A "content"))
      (fun _ => Ok (index_B "chunk")) (T "What is RAG?") empty_world [1%Q]
      (index_A "content") (index_B "chunk")
      [passage (9 # 10) "passage A one"; passage (7 # 10) "passage A two"]
      [passage (3 # 10) "passage B one"; passage (6 # 10) "passage B two"]).
    + reflexivity.
    + reflexivity.
    + reflexivity.
    + intros w'. reflexivity.
    + intros w'. reflexivity.
    + vm_compute. discriminate.
    + reflexivity.
Defined.

(** C5 fails: the model call raises a rate-limit error, and neither
    [get_llm_answer] nor [rag_pipeline] raises anything: both return the
    error text as an ordinary answer string. *)
Lemma llm_exception_not_surfaced :
  fst (get_llm_answer (T "What is RAG?") context_1 (fun _ _ => Raise rate_limited)
         empty_world)
    = Ok (VStr (T "Error generating answer: Error code: 429")) /\
  fst (rag_pipeline const_embedding (fun _ => Ok (index_A "content"))
         (fun _ => Ok []) (T "What is RAG?") (fun _ _ => Raise rate_limited)
         empty_world)
    = Ok (VStr (T "Error generating answer: Error code: 429")).
Proof. split; vm_compute; reflexivity. Qed.

Lemma Qltb_iff x y : Qltb x y = true <-> (x < y)%Q.
Proof.
  unfold Qltb. rewrite negb_true_iff. split.
  - intros H. apply Qnot_le_lt. intros L. apply Qle_bool_iff in L. congruence.
  - intros H. destruct (Qle_bool y x) eqn:E; [|reflexivity].
    apply Qle_bool_iff in E. exfalso. exact (Qlt_not_le _ _ H E).
Qed.

Lemma find_similar_faq_hit encode cos_sim chroma_query user_question w query_emb m rest :
  encode user_question = Ok query_emb ->
  chroma_query (store w) query_emb = Ok (m :: rest) ->
  find_similar_faq encode cos_sim chroma_query user_question w =
  (let similarity := cos_sim query_emb (e_emb m) in
   let threshold := ((get_threshold_by_length user_question None
                      + get_threshold_by_length (e_question m) None) / 2)%Q in
   if Qltb similarity (-1)%Q || Qltb 1 similarity then Ok None
   else if Qle_bool threshold similarity then Ok (Some (e_answer m))
   else Ok None,
   log CallCacheQuery (log CallEncode w)).
Proof.
  intros He Hq. unfold find_similar_faq, catch, bind, ext, cache_query.
  rewrite He. cbn [store log]. rewrite Hq. cbn zeta.
  destruct (_ || _); [reflexivity|]. destruct (Qle_bool _ _); reflexivity.
Qed.

Lemma find_similar_faq_decision (similarity threshold : Q) (answer : text) :
  let r := if Qltb similarity (-1)%Q || Qltb 1 similarity then @Ok (option text) None
           else if Qle_bool threshold similarity then Ok (Some answer)
           else Ok None in
  ((-1 <= similarity)%Q /\ (similarity <= 1)%Q /\ (threshold <= similarity)%Q ->
     r = Ok (Some answer)) /\
  (~ ((-1 <= similarity)%Q /\ (similarity <= 1)%Q /\ (threshold <= similarity)%Q) ->
     r = Ok None).
Proof.
  intros r. unfold r. split.
  - intros [L1 [L2 L3]].
    destruct (Qltb similarity (-1)) eqn:A1.
    { apply Qltb_iff in A1. exfalso. exact (Qlt_not_le _ _ A1 L1). }
    destruct (Qltb 1 similarity) eqn:A2.
    { apply Qltb_iff in A2. exfalso. exact (Qlt_not_le _ _ A2 L2). }
    simpl. apply Qle_bool_iff in L3. now rewrite L3.
  - intros N.
    destruct (Qltb similarity (-1) || Qltb 1 similarity) eqn:A; [reflexivity|].
    apply orb_false_iff in A as [A1 A2].
    destruct (Qle_bool threshold similarity) eqn:B; [|reflexivity].
    exfalso. apply N. apply Qle_bool_iff in B. split; [|split; [|exact B]].
    + apply Qnot_lt_le. intros H. apply Qltb_iff in H. congruence.
    + apply Qnot_lt_le. intros H. apply Qltb_iff in H. congruence.
Qed.

(** C6 (as the code behaves): once the nearest record [m] is found, the
    gate returns its cached answer exactly when the computed similarity
    lies in [-1, 1] and reaches the length-adaptive threshold, and
    returns [None] otherwise; a similarity outside [-1, 1] (float
    rounding) is rejected even above the threshold.  The only external
    calls it makes are [model.encode] and the cache query: no retrieval
    and no language-model call, and the cache is left unchanged. *)
Theorem cache_gate_returns_cached_answer
    (encode : text -> Outcome (list Q)) (cos_sim : list Q -> list Q -> Q)
    (chroma_query : list Entry -> list Q -> Outcome (list Entry))
    (user_question : text) (w : World) (query_emb : list Q) (m : Entry)
    (rest : list Entry)
    (Henc : encode user_question = Ok query_emb)
    (Hquery : chroma_query (store w) query_emb = Ok (m :: rest)) :
  let similarity := cos_sim query_emb (e_emb m) in
  let threshold := ((get_threshold_by_length user_question None
                     + get_threshold_by_length (e_question m) None) / 2)%Q in
  let result := find_similar_faq encode cos_sim chroma_query user_question w in
  ((-1 <= similarity)%Q /\ (similarity <= 1)%Q /\ (threshold <= similarity)%Q ->
     fst result = Ok (Some (e_answer m))) /\
  (~ ((-1 <= similarity)%Q /\ (similarity <= 1)%Q /\ (threshold <= similarity)%Q) ->
     fst result = Ok None) /\
  calls (snd result) = calls w ++ [CallEncode; CallCacheQuery] /\
  store (snd result) = store w.
Proof.
  intros similarity threshold result. unfold result.
  rewrite (find_similar_faq_hit _ _ _ _ _ _ _ _ Henc Hquery). cbn [fst snd].
  destruct (find_similar_faq_decision similarity threshold (e_answer m)) as [D1 D2].
  split; [exact D1|]. split; [exact D2|].
  split; [simpl; now rewrite <- app_assoc|reflexivity].
Qed.

Lemma cache_gate_returns_cached_answer_witness :
  fst (find_similar_faq (fun _ => Ok [1%Q]) (fun _ _ => 24 # 25) first_record
         (T "How do I care for jeans") jeans_world)
    = Ok (Some (e_answer jeans_entry)).
Proof.
  apply (proj1 (cache_gate_returns_cached_answer (fun _ => Ok [1%Q])
    (fun _ _ => 24 # 25) first_record (T "How do I care for jeans") jeans_world
    [1%Q] jeans_entry [] eq_refl eq_refl)).
  split; [|split]; vm_compute; intros H; discriminate.
Defined.

(** C6 fails: the stored question is asked again, the similarity computed
    for the identical embeddings rounds to 1.0000001, which is above the
    threshold, and the gate still returns no cached answer. *)
Lemma cache_gate_rejects_rounded_similarity :
  Qle_bool ((get_threshold_by_length (T "How to care for jeans") None
             + get_threshold_by_length (e_question jeans_entry) None) / 2)
           (cos_sim_rounded [1%Q] (e_emb jeans_entry)) = true /\
  fst (find_similar_faq (fun _ => Ok [1%Q]) cos_sim_rounded first_record
         (T "How to care for jeans") jeans_world) = Ok None.
Proof. split; vm_compute; reflexivity. Qed.

Lemma get_threshold_by_length_default t :
  get_threshold_by_length t None =
  (let n := List.length (py_split t) in
   if n <=? 5 then 75 # 100
   else if n <=? 15 then 80 # 100
   else if n <=? 1000 then 85 # 100
   else 65 # 100).
Proof.
  unfold get_threshold_by_length, default_thresholds. cbn zeta.
  generalize (List.length (py_split t)) as n. intros n. cbn [first_bucket].
  destruct (Nat.leb_spec n 5); [reflexivity|].
  destruct (Nat.leb_spec 6 n); [|lia].
  destruct (Nat.leb_spec n 15); [reflexivity|].
  destruct (Nat.leb_spec 16 n); [|lia].
  destruct (Nat.leb_spec n 1000); reflexivity.
Qed.

(** C10: the gate compares the similarity with the mean of the length
    thresholds of the incoming and of the matched question; a question of
    0-5 words gets 0.75, 6-15 words 0.80, 16-1000 words 0.85, and more
    than 1000 words 0.65, below all three buckets. *)
Theorem effective_threshold_is_mean
    (encode : text -> Outcome (list Q)) (cos_sim : list Q -> list Q -> Q)
    (chroma_query : list Entry -> list Q -> Outcome (list Entry))
    (user_question : text) (w : World) (query_emb : list Q) (m : Entry)
    (rest : list Entry)
    (Henc : encode user_question = Ok query_emb)
    (Hquery : chroma_query (store w) query_emb = Ok (m :: rest))
    (Hrange : (-1 <= cos_sim query_emb (e_emb m))%Q /\ (cos_sim query_emb (e_emb m) <= 1)%Q) :
  (fst (find_similar_faq encode cos_sim chroma_query user_question w)
     = Ok (Some (e_answer m)) <->
   (((get_threshold_by_length user_question None
      + get_threshold_by_length (e_question m) None) / 2)
    <= cos_sim query_emb (e_emb m))%Q) /\
  (forall t : text,
     get_threshold_by_length t None =
     (let n := List.length (py_split t) in
      if n <=? 5 then 75 # 100
      else if n <=? 15 then 80 # 100
      else if n <=? 1000 then 85 # 100
      else 65 # 100)) /\
  (65 # 100 < 75 # 100 /\ 65 # 100 < 80 # 100 /\ 65 # 100 < 85 # 100)%Q.
Proof.
  split; [|split; [exact get_threshold_by_length_default|]].
  - rewrite (find_similar_faq_hit _ _ _ _ _ _ _ _ Henc Hquery). cbn [fst].
    destruct (find_similar_faq_decision (cos_sim query_emb (e_emb m))
      ((get_threshold_by_length user_question None
        + get_threshold_by_length (e_question m) None) / 2) (e_answer m)) as [D1 D2].
    destruct Hrange as [R1 R2]. split.
    + intros E. destruct (Qlt_le_dec (cos_sim query_emb (e_emb m))
        ((get_threshold_by_length user_question None
          + get_threshold_by_length (e_question m) None) / 2)) as [L|L]; [|exact L].
      rewrite D2 in E; [discriminate|].
      intros [_ [_ L']]. exact (Qlt_not_le _ _ L L').
    + intros L. apply D1. auto.
  - repeat split; vm_compute; reflexivity.
Qed.

Lemma effective_threshold_is_mean_witness :
  fst (find_similar_faq (fun _ => Ok [1%Q]) (fun _ _ => 24 # 25) first_record
         (T "How do I care for jeans") jeans_world)
    = Ok (Some (e_answer jeans_entry)) <->
  (((get_threshold_by_length (T "How do I care for jeans") None
     + get_threshold_by_length (e_question jeans_entry) None) / 2) <= 24 # 25)%Q.
Proof.
  refine (proj1 (effective_threshold_is_mean (fun _ => Ok [1%Q]) (fun _ _ => 24 # 25)
    first_record (T "How do I care for jeans") jeans_world [1%Q] jeans_entry []
    eq_refl eq_refl (conj _ _))); vm_compute; intros H; discriminate.
Defined.

Lemma text_eqb_true a b : text_eqb a b = true <-> a = b.
Proof. unfold text_eqb. destruct (list_eq_dec ascii_dec a b); split; congruence. Qed.

Lemma cache_get_empty_not_in (l : list Entry) q :
  filter (fun e => text_eqb (e_id e) q) l = [] -> ~ In q (map e_id l).
Proof.
  intros F Hin. apply in_map_iff in Hin as [e [Ee He]].
  assert (In e (filter (fun e => text_eqb (e_id e) q) l)).
  { apply filter_In. split; [exact He|]. now apply text_eqb_true. }
  rewrite F in H. destruct H.
Qed.

Lemma add_faq_step encode chroma_add_error question answer w :
  let w' := snd (add_faq encode chroma_add_error question answer w) in
  store w' = store w \/
  exists e, e_id e = question /\ ~ In question (map e_id (store w)) /\
            store w' = store w ++ [e].
Proof.
  cbn zeta. unfold add_faq, catch, bind, cache_get.
  destruct (filter _ (store w)) as [|x xs] eqn:F; [|left; reflexivity].
  simpl. unfold ext. destruct (encode question) as [emb|ex]; [|left; reflexivity].
  unfold cache_add. cbn [store log].
  destruct (chroma_add_error _ _); [left; reflexivity|].
  right. eexists. split; [|split; [|reflexivity]].
  - reflexivity.
  - now apply cache_get_empty_not_in.
Qed.

Lemma add_faq_existing encode chroma_add_error question answer w :
  In question (map e_id (store w)) ->
  fst (add_faq encode chroma_add_error question answer w) = Ok false /\
  store (snd (add_faq encode chroma_add_error question answer w)) = store w.
Proof.
  intros Hin. unfold add_faq, catch, bind, cache_get.
  destruct (filter _ (store w)) as [|x xs] eqn:F.
  - exfalso. exact (cache_get_empty_not_in _ _ F Hin).
  - split; reflexivity.
Qed.

Lemma NoDup_snoc {A} (l : list A) x : NoDup l -> ~ In x l -> NoDup (l ++ [x]).
Proof.
  intros N H. apply (Permutation_NoDup (Permutation_cons_append l x)).
  constructor; assumption.
Qed.

(** C7: along any sequence of [add_faq] calls, the FAQ collection keeps at
    most one record per question: records are only appended, never
    changed or removed, and adding a question that already has a record
    returns [False] and leaves the collection unchanged. *)
Theorem add_faq_one_entry_per_question
    (encode : text -> Outcome (list Q))
    (chroma_add_error : list Entry -> Entry -> option Exc)
    (faqs : list (text * text)) (w : World)
    (Hnd : NoDup (map e_id (store w))) :
  NoDup (map e_id (store (add_faqs encode chroma_add_error faqs w))) /\
  (exists added, store (add_faqs encode chroma_add_error faqs w) = store w ++ added) /\
  (forall question answer, In question (map e_id (store w)) ->
     fst (add_faq encode chroma_add_error question answer w) = Ok false /\
     store (snd (add_faq encode chroma_add_error question answer w)) = store w).
Proof.
  split; [|split; [|intros; now apply add_faq_existing]].
  - revert w Hnd; induction faqs as [|[q a] faqs IH]; intros w Hnd; [exact Hnd|].
    simpl. apply IH.
    destruct (add_faq_step encode chroma_add_error q a w) as [E|[e [Ee [Hn E]]]];
      rewrite E; [exact Hnd|].
    rewrite map_app. simpl. apply NoDup_snoc; [exact Hnd|now rewrite Ee].
  - clear Hnd. revert w; induction faqs as [|[q a] faqs IH]; intros w.
    + exists []. now rewrite app_nil_r.
    + simpl. destruct (IH (snd (add_faq encode chroma_add_error q a w))) as [added Ea].
      rewrite Ea.
      destruct (add_faq_step encode chroma_add_error q a w) as [E|[e [_ [_ E]]]];
        rewrite E.
      * now exists added.
      * exists (e :: added). now rewrite <- app_assoc.
Qed.

Lemma add_faq_one_entry_per_question_witness :
  NoDup (map e_id (store (add_faqs (fun _ => Ok [1%Q]) (fun _ _ => None)
    [(T "How to care for jeans", T "Cold water");
     (T "RAG", T "Retrieval augmented generation");
     (T "How to care for jeans", T "Hot water")] jeans_world))).
Proof.
  apply (proj1 (add_faq_one_entry_per_question (fun _ => Ok [1%Q]) (fun _ _ => None)
    [(T "How to care for jeans", T "Cold water");
     (T "RAG", T "Retrieval augmented generation");
     (T "How to care for jeans", T "Hot water")] jeans_world
    ltac:(repeat constructor; intros H; destruct H))).
Defined.

(** C8 (as the code behaves): applying [remove_citation_markers] a
    second time changes nothing exactly when its first result contains no
    [\[docN\]] marker; removing a marker can splice a new one together
    from the text around it, so the function is not idempotent in
    general.  On the spec's example it removes the two markers and keeps
    the rest verbatim. *)
Theorem remove_citation_markers_second_pass :
  (forall s : text,
     remove_citation_markers (remove_citation_markers s)
       = remove_citation_markers s
     <-> marker_free (remove_citation_markers s)) /\
  remove_citation_markers (T "The answer is X [doc1]. See also [doc23].")
    = T "The answer is X . See also .".
Proof.
  split; [intros s; apply remove_citation_markers_fixpoint_iff|].
  vm_compute. reflexivity.
Qed.

(** C8 fails: "[do[doc1]c2]" loses "[doc1]" in the first pass, which
    leaves "[doc2]", removed only by a second pass. *)
Lemma remove_citation_markers_not_idempotent :
  remove_citation_markers (T "[do[doc1]c2]") = T "[doc2]" /\
  remove_citation_markers (remove_citation_markers (T "[do[doc1]c2]")) = [] /\
  ~ (forall s, remove_citation_markers (remove_citation_markers s)
               = remove_citation_markers s).
Proof.
  split; [vm_compute; reflexivity|]. split; [vm_compute; reflexivity|].
  intros H. specialize (H (T "[do[doc1]c2]")). vm_compute in H. discriminate.
Qed.

(** C9 (as the code behaves): [fix_line_breaks] first writes a space in
    place of every newline that has no newline right before or after it
    and keeps every other character, runs of two or more newlines
    included, at its position; then it strips leading and trailing
    whitespace ([str.strip()]). *)
Theorem fix_line_breaks_replaces_then_strips (s : text) :
  let replaced := sub_single_newlines false s in
  length replaced = length s /\
  (forall i, nth_error replaced i = sub_at false s i) /\
  exists pre post,
    replaced = pre ++ fix_line_breaks s ++ post /\
    all_space pre = true /\ all_space post = true /\
    nonspace_ends (fix_line_breaks s).
Proof.
  cbn zeta. split; [apply sub_single_newlines_length|].
  split; [intros i; apply sub_single_newlines_nth|].
  apply py_strip_split.
Qed.

(** C9 fails: " a" has no newline, yet [fix_line_breaks] removes its
    leading space; likewise the single trailing newline of "a\n" does not
    become a space but disappears. *)
Lemma fix_line_breaks_strips_ends :
  fix_line_breaks (T " a") = T "a" /\
  fix_line_breaks (T "a" ++ [nl]) = T "a" /\
  ~ (forall s, ~ In nl s -> fix_line_breaks s = s).
Proof.
  split; [vm_compute; reflexivity|]. split; [vm_compute; reflexivity|].
  intros H. specialize (H (T " a")).
  assert (N : ~ In nl (T " a")).
  { vm_compute. intros [E|[E|[]]]; discriminate. }
  specialize (H N). vm_compute in H. discriminate.
Qed.

(* ================================================================== *)
(** * Further properties of the code *)

(** ** Line breaks *)

Lemma space_not_nl : space <> nl.
Proof. intros H. vm_compute in H. discriminate. Qed.

Lemma some_eq {A : Type} (x y : A) : Some x = Some y -> x = y.
Proof. intros H. injection H. auto. Qed.

Lemma is_nl_true c : is_nl c = true -> c = nl.
Proof. apply Ascii.eqb_eq. Qed.

Lemma is_nl_nl : is_nl nl = true.
Proof. reflexivity. Qed.

Lemma is_space_nl : is_space nl = true.
Proof. reflexivity. Qed.

Lemma sub_single_newlines_no_isolated s : no_isolated_nl (sub_single_newlines false s).
Proof.
  intros i Hi. rewrite sub_single_newlines_nth in Hi. unfold sub_at in Hi.
  destruct (nth_error s i) as [c|] eqn:Ec; [|discriminate]. cbn [option_map] in Hi.
  destruct (is_nl c && _ && _) eqn:C.
  { exfalso. exact (space_not_nl (some_eq _ _ Hi)). }
  apply some_eq in Hi. subst c. rewrite is_nl_nl in C. cbn [andb] in C.
  apply andb_false_iff in C as [B|A]; apply negb_false_iff in B || apply negb_false_iff in A.
  - destruct i as [|j]; [discriminate|].
    destruct (nth_error s j) as [d|] eqn:Ed; [|discriminate].
    cbn [opt_is_nl] in B. apply is_nl_true in B. subst d.
    left. rewrite sub_single_newlines_nth. unfold sub_at. rewrite Ed, Ec.
    cbn [option_map opt_is_nl]. rewrite is_nl_nl. cbn [andb negb].
    destruct j; rewrite andb_false_r; reflexivity.
  - destruct (nth_error s (S i)) as [d|] eqn:Ed; [|discriminate].
    cbn [opt_is_nl] in A. apply is_nl_true in A. subst d.
    right. rewrite sub_single_newlines_nth. unfold sub_at. rewrite Ed, Ec.
    cbn [option_map opt_is_nl]. rewrite is_nl_nl. reflexivity.
Qed.

Lemma nth_error_mid {A : Type} (pre u post : list A) i :
  i < length u -> nth_error (pre ++ u ++ post) (length pre + i) = nth_error u i.
Proof.
  intros H. rewrite nth_error_app2 by lia.
  replace (length pre + i - length pre) with i by lia.
  apply nth_error_app1. exact H.
Qed.

Lemma nonspace_ends_nl u i :
  nonspace_ends u -> nth_error u i = Some nl -> 0 < i /\ S i < length u.
Proof.
  intros E H. destruct u as [|c t]; [destruct i; discriminate|].
  destruct E as [E1 E2].
  assert (L : i < length (c :: t)) by (apply nth_error_Some; congruence).
  split.
  - destruct i; [|lia]. cbn [nth_error] in H. apply some_eq in H. subst c.
    rewrite is_space_nl in E1. discriminate.
  - destruct (Nat.eq_dec (S i) (length (c :: t))) as [Eq|]; [|lia]. exfalso.
    assert (R := @app_removelast_last _ (c :: t) c ltac:(discriminate)).
    assert (Lr : length (c :: t) = length (removelast (c :: t)) + 1)
      by (rewrite R at 1; rewrite length_app; reflexivity).
    rewrite R, nth_error_app2 in H by lia.
    replace (i - length (removelast (c :: t))) with 0 in H by lia.
    cbn [nth_error] in H. apply some_eq in H. rewrite H, is_space_nl in E2. discriminate.
Qed.

Lemma py_strip_no_isolated r : no_isolated_nl r -> no_isolated_nl (py_strip r).
Proof.
  intros N i Hi.
  destruct (py_strip_split r) as [pre [post [Er [_ [_ Ends]]]]].
  set (u := py_strip r) in *.
  destruct (nonspace_ends_nl u i Ends Hi) as [I0 I1].
  assert (Hr : nth_error r (length pre + i) = Some nl)
    by (rewrite Er, nth_error_mid by lia; exact Hi).
  destruct (N _ Hr) as [B|A].
  - left. destruct i as [|j]; [lia|].
    replace (length pre + S j) with (S (length pre + j)) in B by lia.
    rewrite Er, nth_error_mid in B by lia. exact B.
  - right. replace (S (length pre + i)) with (length pre + S i) in A by lia.
    rewrite Er, nth_error_mid in A by lia. exact A.
Qed.

Lemma no_isolated_sub_id u : no_isolated_nl u -> sub_single_newlines false u = u.
Proof.
  intros N. apply nth_error_ext. intros i.
  rewrite sub_single_newlines_nth. unfold sub_at.
  destruct (nth_error u i) as [c|] eqn:Ec; [|reflexivity]. cbn [option_map].
  destruct (is_nl c) eqn:Nc; [|reflexivity].
  apply is_nl_true in Nc. subst c. f_equal.
  destruct (N i Ec) as [B|A].
  - destruct i as [|j]; [destruct B|]. rewrite B. reflexivity.
  - rewrite A. cbn [opt_is_nl]. rewrite is_nl_nl, !andb_false_r. reflexivity.
Qed.

Lemma nonspace_ends_strip u : nonspace_ends u -> py_strip u = u.
Proof.
  destruct u as [|c t]; [reflexivity|]. intros [E1 E2].
  unfold py_strip. cbn [lstrip]. rewrite E1. unfold rstrip.
  set (l := c :: t) in *.
  assert (R := @app_removelast_last _ l c ltac:(discriminate)).
  rewrite R, rev_app_distr. cbn [rev app lstrip]. rewrite E2.
  change (last l c :: rev (removelast l)) with (rev [last l c] ++ rev (removelast l)).
  rewrite <- rev_app_distr, rev_involutive. reflexivity.
Qed.

(** ** Citation markers *)

Lemma subseq_refl {A : Type} (l : list A) : subseq l l.
Proof. induction l; constructor; assumption. Qed.

Lemma subseq_app_l {A : Type} (pre l1 l2 : list A) :
  subseq l1 l2 -> subseq l1 (pre ++ l2).
Proof. intros H. induction pre; simpl; [exact H|]. constructor. exact IHpre. Qed.

Lemma span_digits_app s d r : span_digits s = (d, r) -> s = d ++ r.
Proof.
  revert d r; induction s as [|c t IH]; simpl; intros d r H.
  - injection H as <- <-; reflexivity.
  - destruct (is_digit c).
    + destruct (span_digits t) as [d' r'] eqn:E.
      injection H as <- <-. simpl. f_equal. apply IH. reflexivity.
    + injection H as <- <-; reflexivity.
Qed.

Lemma match_marker_suffix s rest :
  match_marker s = Some rest -> exists pre, s = pre ++ rest.
Proof.
  unfold match_marker.
  destruct s as [|a [|b [|c [|d r]]]]; try discriminate.
  destruct (_ && _); [|discriminate].
  destruct (span_digits r) as [[|x ds] [|e rest']] eqn:E; try discriminate.
  destruct (Ascii.eqb e "]"); [|discriminate].
  intros H; injection H as <-.
  apply span_digits_app in E.
  exists (a :: b :: c :: d :: (x :: ds) ++ [e]). rewrite E.
  simpl. now rewrite <- app_assoc.
Qed.

Lemma remove_citation_markers_subseq s : subseq (remove_citation_markers s) s.
Proof.
  remember (length s) as n eqn:En. revert s En.
  induction n as [n IH] using lt_wf_ind; intros [|c t] En; subst n;
    [simp remove_citation_markers; constructor|].
  rewrite remove_citation_markers_cons.
  destruct (match_marker (c :: t)) as [rest|] eqn:M.
  - pose proof (match_marker_shorter _ _ M) as L.
    destruct (match_marker_suffix _ _ M) as [pre E]. rewrite E.
    apply subseq_app_l. exact (IH (length rest) L rest eq_refl).
  - constructor. apply (IH (length t)); [simpl; lia|reflexivity].
Qed.

(** ** Answer generation *)




(** ** Search results *)

Lemma process_search_results_cases ds f w :
  (exists ps, _process_search_results ds f w = (Ok ps, w) /\
     map score ps = map search_score ds /\
     map (fun p => Some (content p)) ps = map (fun d => lookup_field f (doc_fields d)) ds) \/
  (_process_search_results ds f w = (Raise (PyExc "KeyError" (T "'" ++ T f ++ T "'")), w) /\
   Exists (fun d => lookup_field f (doc_fields d) = None) ds).
Proof.
  induction ds as [|d ds IH].
  - left. exists []. repeat split.
  - cbn [_process_search_results]. unfold get_field, bind, ret, raise.
    destruct (lookup_field f (doc_fields d)) as [c|] eqn:L.
    + destruct IH as [[ps [E [M1 M2]]]|[E X]]; rewrite E.
      * left. eexists. split; [reflexivity|]. cbn [map]. now rewrite M1, M2, L.
      * right. split; [reflexivity|]. apply Exists_cons_tl. exact X.
    + right. split; [reflexivity|]. apply Exists_cons_hd. exact L.
Qed.

Lemma process_search_results_missing ds f w :
  Exists (fun d => lookup_field f (doc_fields d) = None) ds ->
  _process_search_results ds f w = (Raise (PyExc "KeyError" (T "'" ++ T f ++ T "'")), w).
Proof.
  intros X. destruct (process_search_results_cases ds f w) as [[ps [_ [_ M]]]|[E _]];
    [|exact E].
  exfalso. apply Exists_exists in X as [d [Hd Nd]].
  assert (In (lookup_field f (doc_fields d)) (map (fun p => Some (content p)) ps)).
  { rewrite M. apply in_map_iff. exists d. split; [reflexivity|exact Hd]. }
  apply in_map_iff in H as [p [Ep _]]. congruence.
Qed.

Ltac calls_prefix_at k :=
  exists k; cbn [calls store log firstn fst snd raise ret]; rewrite <- ?app_assoc;
  reflexivity.

Ltac calls_prefix :=
  first [ calls_prefix_at 0 | calls_prefix_at 1 | calls_prefix_at 2
        | calls_prefix_at 3 | calls_prefix_at 4 ].

Lemma rag_pipeline_result embed_query search_client_text search_client_pdf
    question openai_client w :
  let r := rag_pipeline embed_query search_client_text search_client_pdf question
             openai_client w in
  (fst r = Ok VEmptyList \/ (exists s, fst r = Ok (VStr s)) \/
   exists e, fst r = Raise (HTTPException 500 (T "Internal error: " ++ exc_str e))) /\
  store (snd r) = store w /\
  exists k, calls (snd r) =
    calls w ++ firstn k [CallEmbedQuery; CallSearch "text"; CallSearch "pdf"; CallLLM].
Proof.
  cbn zeta. unfold rag_pipeline, catch, bind, ext.
  destruct (embed_query question) as [v|e].
  2: { split; [right; right; eexists; reflexivity|split; [reflexivity|calls_prefix]]. }
  destruct (search_client_text v) as [th|e].
  2: { split; [right; right; eexists; reflexivity|split; [reflexivity|calls_prefix]]. }
  destruct (search_client_pdf v) as [ph|e].
  2: { split; [right; right; eexists; reflexivity|split; [reflexivity|calls_prefix]]. }
  destruct (process_search_results_cases th "content"
    (log (CallSearch "pdf") (log (CallSearch "text") (log CallEmbedQuery w))))
    as [[pt [Et _]]|[Et _]]; rewrite Et.
  2: { split; [right; right; eexists; reflexivity|split; [reflexivity|calls_prefix]]. }
  destruct (process_search_results_cases ph "chunk"
    (log (CallSearch "pdf") (log (CallSearch "text") (log CallEmbedQuery w))))
    as [[pp [Ep _]]|[Ep _]];
    rewrite Ep.
  2: { split; [right; right; eexists; reflexivity|split; [reflexivity|calls_prefix]]. }
  cbn zeta. destruct (is_empty (fuse (pt ++ pp))).
  { split; [left; reflexivity|split; [reflexivity|calls_prefix]]. }
  destruct (get_llm_answer_result question (assemble_context (fuse (pt ++ pp)))
              openai_client
              (log (CallSearch "pdf") (log (CallSearch "text") (log CallEmbedQuery w))))
    as [a [Ea _]].
  rewrite Ea. unfold ret.
  destruct (all_space (assemble_context (fuse (pt ++ pp)))), a;
    (split; [first [left; reflexivity | right; left; eexists; reflexivity]
            |split; [reflexivity|calls_prefix]]).
Qed.


(** ** Ranking *)

Lemma retrieve_and_rank_ok retriever_pdf retriever_text ix_doc ix_txt question top_k w
    dp dt :
  retriever_pdf question = Ok dp -> retriever_text question = Ok dt ->
  retrieve_and_rank retriever_pdf retriever_text ix_doc ix_txt question top_k w =
  (Ok (firstn top_k (sorted_desc doc_score
         (map (set_source_index ix_doc) dp ++ map (set_source_index ix_txt) dt))),
   log (CallRetrieve "text") (log (CallRetrieve "pdf") w)).
Proof.
  intros Hp Ht. unfold retrieve_and_rank, catch, bind, ext. rewrite Hp, Ht. reflexivity.
Qed.

Lemma insert_desc_last {A : Type} (key : A -> Q) x l :
  Forall (fun y => (key x <= key y)%Q) l -> insert_desc key x l = l ++ [x].
Proof.
  induction 1 as [|y l Hy _ IH]; [reflexivity|].
  cbn [insert_desc]. apply Qle_bool_iff in Hy. rewrite Hy, IH. reflexivity.
Qed.

Lemma sorted_desc_fold_sorted {A : Type} (key : A -> Q) l acc :
  StronglySorted (ranks_before key) l ->
  (forall a x, In a acc -> In x l -> (key x <= key a)%Q) ->
  fold_left (fun acc x => insert_desc key x acc) l acc = acc ++ l.
Proof.
  revert acc; induction l as [|x l IH]; intros acc S H; [now rewrite app_nil_r|].
  cbn [fold_left]. apply StronglySorted_inv in S as [S Fx].
  rewrite insert_desc_last.
  2: { apply Forall_forall. intros a Ha. apply H; [exact Ha|now left]. }
  rewrite IH; [now rewrite <- app_assoc|exact S|].
  intros a y Ha Hy. apply in_app_or in Ha as [Ha|[<-|[]]].
  - apply H; [exact Ha|now right].
  - rewrite Forall_forall in Fx. exact (Fx y Hy).
Qed.

Lemma sorted_desc_sorted_id {A : Type} (key : A -> Q) l :
  StronglySorted (ranks_before key) l -> sorted_desc key l = l.
Proof.
  intros S. unfold sorted_desc. rewrite sorted_desc_fold_sorted; [reflexivity|exact S|].
  intros a x [].
Qed.

Lemma filter_all_true {A : Type} (f : A -> bool) l :
  (forall x, In x l -> f x = true) -> filter f l = l.
Proof.
  induction l as [|x l IH]; intros H; [reflexivity|].
  cbn [filter]. rewrite (H x (or_introl eq_refl)). f_equal.
  apply IH. intros y Hy. apply H. now right.
Qed.

Lemma in_firstn {A : Type} n (l : list A) x : In x (firstn n l) -> In x l.
Proof. intros H. rewrite <- (firstn_skipn n l). apply in_or_app. now left. Qed.

(** ** Context formatting and source lists *)

Lemma py_join_cons sep x xs : exists rest, py_join sep (x :: xs) = x ++ rest.
Proof.
  destruct xs as [|y ys]; [exists []; now rewrite app_nil_r|].
  eexists. reflexivity.
Qed.

Lemma py_join_length sep xs :
  length (py_join sep xs) =
  list_sum (map (@length ascii) xs) + (length xs - 1) * length sep.
Proof.
  induction xs as [|x xs IH]; [reflexivity|].
  destruct xs as [|y ys]; [cbn; lia|].
  change (py_join sep (x :: y :: ys)) with (x ++ sep ++ py_join sep (y :: ys)).
  rewrite !length_app, IH. cbn [map list_sum length].
  replace (S (S (length ys)) - 1) with (S (length ys)) by lia.
  replace (S (length ys) - 1) with (length ys) by lia.
  unfold list_sum. cbn [fold_right Nat.mul]. lia.
Qed.

Lemma py_join_contains sep xs x : In x xs -> contains x (py_join sep xs) = true.
Proof.
  intros H. apply contains_spec.
  induction xs as [|y xs IH]; [destruct H|].
  destruct H as [<-|H].
  - destruct xs as [|z zs]; [exists [], []; now rewrite app_nil_r|].
    exists [], (sep ++ py_join sep (z :: zs)). reflexivity.
  - destruct (IH H) as [a [b E]].
    destruct xs as [|z zs]; [destruct H|].
    exists (y ++ sep ++ a), b.
    change (py_join sep (y :: z :: zs)) with (y ++ sep ++ py_join sep (z :: zs)).
    rewrite E. now rewrite <- !app_assoc.
Qed.

Lemma doc_block_not_blank d : exists rest, doc_block d = "S"%char :: rest.
Proof. eexists. reflexivity. Qed.

Lemma existsb_text_eqb t l : existsb (text_eqb t) l = true <-> In t l.
Proof.
  rewrite existsb_exists. split.
  - intros [x [Hx E]]. apply text_eqb_true in E. now subst.
  - intros H. exists t. split; [exact H|]. now apply text_eqb_true.
Qed.

Lemma collect_sources_from_props acc cs :
  let out := collect_sources_from acc cs in
  (NoDup acc -> NoDup out) /\
  (forall t, In t out <-> In t acc \/ In t (map citation_title cs)) /\
  exists rest, out = acc ++ rest /\ subseq rest (map citation_title cs).
Proof.
  revert acc; induction cs as [|c cs IH]; intros acc; cbn zeta.
  - split; [auto|]. split; [intros t; cbn; tauto|].
    exists []. split; [now rewrite app_nil_r|constructor].
  - cbn [collect_sources_from map].
    destruct (existsb (text_eqb (citation_title c)) acc) eqn:E.
    + apply existsb_text_eqb in E.
      destruct (IH acc) as [N [I [rest [Er Sr]]]].
      split; [exact N|]. split.
      * intros t. rewrite I. cbn [In]. split; [tauto|].
        intros [H|[<-|H]]; auto.
      * exists rest. split; [exact Er|]. constructor. exact Sr.
    + assert (NI : ~ In (citation_title c) acc)
        by (intros H; apply existsb_text_eqb in H; congruence).
      destruct (IH (acc ++ [citation_title c])) as [N [I [rest [Er Sr]]]].
      split; [intros Nd; apply N, NoDup_snoc; assumption|]. split.
      * intros t. rewrite I, in_app_iff. cbn [In]. tauto.
      * exists (citation_title c :: rest). split.
        -- rewrite Er. now rewrite <- app_assoc.
        -- constructor. exact Sr.
Qed.

Lemma py_or_nonempty x d : d <> [] -> py_or x d <> [].
Proof. intros H. destruct x as [[|c s]|]; cbn; first [exact H | discriminate]. Qed.

Lemma citation_title_nonempty c : citation_title c <> [].
Proof. apply py_or_nonempty, py_or_nonempty. discriminate. Qed.

(** ** Word splitting *)

Lemma forallb_rev {A : Type} (f : A -> bool) l : forallb f (rev l) = forallb f l.
Proof.
  destruct (forallb f l) eqn:E.
  - apply forallb_forall. intros x Hx. rewrite forallb_forall in E.
    apply E. now apply in_rev.
  - apply not_true_iff_false. intros H. rewrite forallb_forall in H.
    apply not_true_iff_false in E. apply E. apply forallb_forall.
    intros x Hx. apply H. now apply in_rev in Hx.
Qed.

Lemma py_split_aux_props cur s :
  forallb nonspace cur = true ->
  Forall (fun wd => wd <> [] /\ forallb nonspace wd = true) (py_split_aux cur s) /\
  concat (py_split_aux cur s) = rev cur ++ filter nonspace s.
Proof.
  revert cur; induction s as [|c t IH]; intros cur Hc; cbn [py_split_aux].
  - destruct cur as [|x xs]; cbn [is_empty].
    + split; [constructor|reflexivity].
    + split.
      * constructor; [|constructor]. split.
        -- cbn. destruct (rev xs); discriminate.
        -- now rewrite forallb_rev.
      * cbn [concat filter]. now rewrite !app_nil_r.
  - cbn [filter]. assert (Nc : nonspace c = negb (is_space c)) by reflexivity.
    rewrite Nc. destruct (is_space c) eqn:Sc; cbn [negb].
    + destruct (IH [] eq_refl) as [F E].
      destruct cur as [|x xs]; cbn [is_empty].
      * split; [exact F|]. exact E.
      * split.
        -- constructor; [|exact F]. split.
           ++ cbn. destruct (rev xs); discriminate.
           ++ now rewrite forallb_rev.
        -- cbn [concat]. rewrite E. reflexivity.
    + destruct (IH (c :: cur)) as [F E].
      { cbn. unfold nonspace at 1. rewrite Sc. exact Hc. }
      split; [exact F|]. rewrite E. cbn [rev]. now rewrite <- app_assoc.
Qed.

(** ** The FAQ cache *)

Lemma add_faq_result encode chroma_add_error question answer w :
  let r := add_faq encode chroma_add_error question answer w in
  (fst r = Ok false /\ store (snd r) = store w /\
   (In question (map e_id (store w)) \/ (exists ex, encode question = Raise ex) \/
    exists emb ex, encode question = Ok emb /\
      chroma_add_error (store w) {| e_id := question; e_question := question;
                                    e_answer := answer; e_emb := emb |} = Some ex)) \/
  (exists emb, fst r = Ok true /\ encode question = Ok emb /\
   ~ In question (map e_id (store w)) /\
   store (snd r) = store w ++ [{| e_id := question; e_question := question;
                                   e_answer := answer; e_emb := emb |}]).
Proof.
  cbn zeta. unfold add_faq, catch, bind, cache_get.
  destruct (filter (fun e => text_eqb (e_id e) question) (store w)) as [|x xs] eqn:F.
  - cbn [is_empty negb]. unfold ext.
    destruct (encode question) as [emb|ex] eqn:En.
    + unfold cache_add. cbn [store log].
      destruct (chroma_add_error (store w) _) as [ex|] eqn:A.
      * left. split; [reflexivity|]. split; [reflexivity|]. right; right.
        exists emb, ex. split; [reflexivity|exact A].
      * right. exists emb. split; [reflexivity|]. split; [reflexivity|].
        split; [now apply cache_get_empty_not_in|reflexivity].
    + left. split; [reflexivity|]. split; [reflexivity|]. right; left. now exists ex.
  - left. split; [reflexivity|]. split; [reflexivity|]. left.
    assert (Hx : In x (filter (fun e => text_eqb (e_id e) question) (store w)))
      by (rewrite F; now left).
    apply filter_In in Hx as [Hx E]. apply text_eqb_true in E.
    apply in_map_iff. exists x. split; [exact E|exact Hx].
Qed.

Lemma add_faqs_keeps encode chroma_add_error faqs w q :
  In q (map e_id (store w)) ->
  In q (map e_id (store (add_faqs encode chroma_add_error faqs w))).
Proof.
  revert w; induction faqs as [|[q' a] faqs IH]; intros w H; [exact H|].
  cbn [add_faqs]. apply IH.
  destruct (add_faq_step encode chroma_add_error q' a w) as [E|[e [_ [_ E]]]];
    rewrite E; [exact H|]. rewrite map_app. apply in_or_app. now left.
Qed.

(** ** Answer generation over LangChain *)

Lemma is_thai_ascii c : is_thai c = false.
Proof.
  unfold is_thai. pose proof (nat_ascii_bounded c).
  destruct (Nat.leb_spec 3584 (nat_of_ascii c)); [lia|reflexivity].
Qed.

Lemma existsb_is_thai s : existsb is_thai s = false.
Proof.
  induction s as [|c s IH]; [reflexivity|]. cbn. now rewrite is_thai_ascii, IH.
Qed.

Lemma format_docs_all_space docs : all_space (format_docs docs) = is_empty docs.
Proof.
  destruct docs as [|d ds]; [reflexivity|].
  unfold format_docs. cbn [is_empty map].
  destruct (py_join_cons document_separator (doc_block d) (map doc_block ds)) as [rest E].
  destruct (doc_block_not_blank d) as [r Er].
  rewrite E, Er. reflexivity.
Qed.

Lemma filter_id_absent (l : list Entry) q :
  ~ In q (map e_id l) -> filter (fun e => text_eqb (e_id e) q) l = [].
Proof.
  induction l as [|e l IH]; intros H; [reflexivity|].
  cbn [filter]. destruct (text_eqb (e_id e) q) eqn:E.
  - exfalso. apply text_eqb_true in E. apply H. left. exact E.
  - apply IH. intros H'. apply H. now right.
Qed.

Lemma retrieve_and_rank_empty retriever_pdf retriever_text ix_doc ix_txt question top_k w :
  (exists e, retriever_pdf question = Raise e) \/
  (exists e, retriever_text question = Raise e) \/
  (retriever_pdf question = Ok [] /\ retriever_text question = Ok []) ->
  exists w', retrieve_and_rank retriever_pdf retriever_text ix_doc ix_txt question top_k w
             = (Ok [], w') /\ no_llm_call_since w w'.
Proof.
  unfold retrieve_and_rank, catch, bind, ext.
  intros [[e He]|[[e He]|[H1 H2]]].
  - rewrite He. eexists; split; [reflexivity|].
    exists [CallRetrieve "pdf"]. split; [reflexivity|]. intros [H|[]]; discriminate.
  - destruct (retriever_pdf question) as [dp|e'].
    + rewrite He. eexists; split; [reflexivity|].
      exists [CallRetrieve "pdf"; CallRetrieve "text"].
      split; [cbn; now rewrite <- app_assoc|]. intros [H|[H|[]]]; discriminate.
    + eexists; split; [reflexivity|].
      exists [CallRetrieve "pdf"]. split; [reflexivity|]. intros [H|[]]; discriminate.
  - rewrite H1, H2. unfold ret. cbn [map app sorted_desc fold_left].
    rewrite firstn_nil. eexists; split; [reflexivity|].
    exists [CallRetrieve "pdf"; CallRetrieve "text"].
    split; [cbn; now rewrite <- app_assoc|]. intros [H|[H|[]]]; discriminate.
Qed.

(* ------------------------------------------------------------------ *)
(** ** Properties recorded for the code beyond the claims *)

(** [fix_line_breaks] leaves no newline without a newline neighbour, and
    applying it a second time changes nothing. *)
Theorem fix_line_breaks_idempotent (s : text) :
  no_isolated_nl (fix_line_breaks s) /\
  fix_line_breaks (fix_line_breaks s) = fix_line_breaks s.
Proof.
  assert (N : no_isolated_nl (fix_line_breaks s))
    by (apply py_strip_no_isolated, sub_single_newlines_no_isolated).
  split; [exact N|].
  unfold fix_line_breaks at 1. rewrite no_isolated_sub_id by exact N.
  apply nonspace_ends_strip.
  destruct (py_strip_split (sub_single_newlines false s)) as [_ [_ [_ [_ [_ E]]]]].
  exact E.
Qed.

(** [remove_citation_markers] only deletes characters: its result is the
    input with some characters removed, in the same order. *)
Theorem remove_citation_markers_only_deletes (s : text) :
  subseq (remove_citation_markers s) s.
Proof. apply remove_citation_markers_subseq. Qed.

(** [get_llm_answer] never raises.  On an empty or whitespace-only context
    it returns [None] without calling the model; otherwise it calls the
    model exactly once and never returns [None]. *)
Theorem get_llm_answer_contract (query context : text) (openai_client : Client)
    (w : World) :
  exists v,
    get_llm_answer query context openai_client w
      = (Ok v, if all_space context then w else log CallLLM w) /\
    (v = VNone <-> all_space context = true).
Proof. apply get_llm_answer_result. Qed.

(** When the model's message has no content ([None]), [.strip()] raises
    [AttributeError], which [get_llm_answer] turns into its error
    string. *)
Theorem get_llm_answer_none_content (query context : text) (openai_client : Client)
    (w : World)
    (Hctx : all_space context = false)
    (Hnone : openai_client system_prompt (user_prompt context query) = Ok None) :
  get_llm_answer query context openai_client w =
  (Ok (VStr (T "Error generating answer: 'NoneType' object has no attribute 'strip'")),
   log CallLLM w).
Proof.
  unfold get_llm_answer. rewrite blank_context, Hctx.
  unfold catch, bind, ext. rewrite Hnone. reflexivity.
Qed.

(** [_process_search_results] either keeps every hit, in order, with its
    score and the content of the requested field, or, when some hit lacks
    the field, raises [KeyError] naming it; it touches nothing else. *)
Theorem process_search_results_contract (results : list SearchDoc)
    (content_field : string) (w : World) :
  (exists ps, _process_search_results results content_field w = (Ok ps, w) /\
     map score ps = map search_score results /\
     map (fun p => Some (content p)) ps
       = map (fun d => lookup_field content_field (doc_fields d)) results) \/
  (_process_search_results results content_field w
     = (Raise (PyExc "KeyError" (T "'" ++ T content_field ++ T "'")), w) /\
   Exists (fun d => lookup_field content_field (doc_fields d) = None) results).
Proof. apply process_search_results_cases. Qed.

(** [rag_pipeline] returns [[]] or a string, never [None], or raises
    [HTTPException] 500 with detail "Internal error: ...".  It leaves the
    FAQ store alone, and its external calls are, in order, a prefix of:
    embedding, text-index search, pdf-index search, model call. *)
Theorem rag_pipeline_contract
    (embed_query : text -> Outcome (list Q))
    (search_client_text search_client_pdf : list Q -> Outcome (list SearchDoc))
    (question : text) (openai_client : Client) (w : World) :
  let r := rag_pipeline embed_query search_client_text search_client_pdf question
             openai_client w in
  (fst r = Ok VEmptyList \/ (exists s, fst r = Ok (VStr s)) \/
   exists e, fst r = Raise (HTTPException 500 (T "Internal error: " ++ exc_str e))) /\
  store (snd r) = store w /\
  exists k, calls (snd r) =
    calls w ++ firstn k [CallEmbedQuery; CallSearch "text"; CallSearch "pdf"; CallLLM].
Proof. apply rag_pipeline_result. Qed.

(** Once both searches succeed and the fusion keeps at least one passage,
    [rag_pipeline] gives exactly what [get_llm_answer] gives on the
    assembled excerpts: that context is never blank, so the model is
    called once and the [None] case of the pipeline is never taken. *)
Theorem rag_pipeline_answers_from_fused_context
    (embed_query : text -> Outcome (list Q))
    (search_client_text search_client_pdf : list Q -> Outcome (list SearchDoc))
    (question : text) (openai_client : Client) (w : World) (v : list Q)
    (text_hits pdf_hits : list SearchDoc) (pt pp : list Passage)
    (Hemb : embed_query question = Ok v)
    (Htext : search_client_text v = Ok text_hits)
    (Hpdf : search_client_pdf v = Ok pdf_hits)
    (Hpt : forall w', _process_search_results text_hits "content" w' = (Ok pt, w'))
    (Hpp : forall w', _process_search_results pdf_hits "chunk" w' = (Ok pp, w'))
    (Hne : fuse (pt ++ pp) <> []) :
  rag_pipeline embed_query search_client_text search_client_pdf question openai_client w
  = get_llm_answer question (assemble_context (fuse (pt ++ pp))) openai_client
      (log (CallSearch "pdf") (log (CallSearch "text") (log CallEmbedQuery w))) /\
  calls (snd (rag_pipeline embed_query search_client_text search_client_pdf question
                openai_client w))
  = calls w ++ [CallEmbedQuery; CallSearch "text"; CallSearch "pdf"; CallLLM].
Proof.
  set (w3 := log (CallSearch "pdf") (log (CallSearch "text") (log CallEmbedQuery w))).
  destruct (get_llm_answer_result question (assemble_context (fuse (pt ++ pp)))
              openai_client w3) as [a [Ea Na]].
  rewrite assemble_context_not_blank in Ea, Na by exact Hne.
  assert (E : rag_pipeline embed_query search_client_text search_client_pdf question
                openai_client w
              = get_llm_answer question (assemble_context (fuse (pt ++ pp)))
                  openai_client w3).
  { unfold rag_pipeline, catch, bind, ext.
    rewrite Hemb, Htext, Hpdf. fold w3. rewrite Hpt, Hpp. cbn zeta.
    destruct (is_empty (fuse (pt ++ pp))) eqn:Em.
    { destruct (fuse (pt ++ pp)); [contradiction|discriminate]. }
    rewrite Ea. destruct a; [|reflexivity|reflexivity].
    exfalso. apply proj1 in Na. discriminate (Na eq_refl). }
  split; [exact E|]. rewrite E, Ea. cbn. now rewrite <- !app_assoc.
Qed.

(** A hit of the text index without a ["content"] field, or, when the
    text hits are fine, a hit of the pdf index without a ["chunk"] field,
    makes [rag_pipeline] raise [HTTPException] 500 naming the field,
    after the three retrieval calls and before any model call. *)
Theorem rag_pipeline_missing_field
    (embed_query : text -> Outcome (list Q))
    (search_client_text search_client_pdf : list Q -> Outcome (list SearchDoc))
    (question : text) (openai_client : Client) (w : World) (v : list Q)
    (text_hits pdf_hits : list SearchDoc)
    (Hemb : embed_query question = Ok v)
    (Htext : search_client_text v = Ok text_hits)
    (Hpdf : search_client_pdf v = Ok pdf_hits) :
  (Exists (fun d => lookup_field "content" (doc_fields d) = None) text_hits ->
   rag_pipeline embed_query search_client_text search_client_pdf question openai_client w
   = (Raise (HTTPException 500 (T "Internal error: 'content'")),
      log (CallSearch "pdf") (log (CallSearch "text") (log CallEmbedQuery w)))) /\
  (Forall (fun d => lookup_field "content" (doc_fields d) <> None) text_hits ->
   Exists (fun d => lookup_field "chunk" (doc_fields d) = None) pdf_hits ->
   rag_pipeline embed_query search_client_text search_client_pdf question openai_client w
   = (Raise (HTTPException 500 (T "Internal error: 'chunk'")),
      log (CallSearch "pdf") (log (CallSearch "text") (log CallEmbedQuery w)))).
Proof.
  unfold rag_pipeline, catch, bind, ext. rewrite Hemb, Htext, Hpdf.
  set (w3 := log (CallSearch "pdf") (log (CallSearch "text") (log CallEmbedQuery w))).
  split.
  - intros X. rewrite (process_search_results_missing _ _ w3 X). reflexivity.
  - intros F X.
    destruct (process_search_results_ok text_hits "content" w3 F) as [pt [Et _]].
    rewrite Et, (process_search_results_missing _ _ w3 X). reflexivity.
Qed.

(** The [/aisearch] endpoint passes the pipeline's state through; it
    answers with the pipeline's string or empty list, never meets the
    [None] that [AnswerResponse] would refuse, and replaces every
    exception by [HTTPException] 500 with one fixed detail. *)
Theorem ai_search_contract
    (embed_query : text -> Outcome (list Q))
    (search_client_text search_client_pdf : list Q -> Outcome (list SearchDoc))
    (question : text) (openai_client : Client) (w : World) :
  let r := rag_pipeline embed_query search_client_text search_client_pdf question
             openai_client w in
  let a := ai_search embed_query search_client_text search_client_pdf question
             openai_client w in
  snd a = snd r /\
  match fst r with
  | Ok VNone => False
  | Ok (VStr s) => fst a = Ok {| response_text := AText s |}
  | Ok VEmptyList => fst a = Ok {| response_text := AList [] |}
  | Raise _ =>
      fst a = Raise (HTTPException 500
                (T "An internal error occurred while processing your request."))
  end.
Proof.
  destruct (rag_pipeline_result embed_query search_client_text search_client_pdf
              question openai_client w) as [O _].
  cbn zeta in *. unfold ai_search, catch, bind.
  destruct (rag_pipeline embed_query search_client_text search_client_pdf question
              openai_client w) as [[v|e] w'].
  - cbn [fst] in O. destruct v.
    + exfalso. destruct O as [O|[[s O]|[e O]]]; discriminate.
    + split; reflexivity.
    + split; reflexivity.
  - split; reflexivity.
Qed.

(** When both retrievers answer, [retrieve_and_rank] returns the
    [min(top_k, n)] best of the [n] documents, by descending score, each
    tagged with the name of the index it came from; no document left out
    scores above one that is kept. *)
Theorem retrieve_and_rank_top_k
    (retriever_pdf retriever_text : text -> Outcome (list Document))
    (ix_doc ix_txt : string) (question : text) (top_k : nat) (w : World)
    (dp dt : list Document)
    (Hp : retriever_pdf question = Ok dp) (Ht : retriever_text question = Ok dt) :
  let combined := map (set_source_index ix_doc) dp ++ map (set_source_index ix_txt) dt in
  exists ranked dropped,
    retrieve_and_rank retriever_pdf retriever_text ix_doc ix_txt question top_k w
      = (Ok ranked, log (CallRetrieve "text") (log (CallRetrieve "pdf") w)) /\
    length ranked = Nat.min top_k (length combined) /\
    StronglySorted (ranks_before doc_score) ranked /\
    Permutation combined (ranked ++ dropped) /\
    (forall d d', In d ranked -> In d' dropped -> (doc_score d' <= doc_score d)%Q) /\
    (forall d, In d ranked ->
       meta_source_index d = Some ix_doc \/ meta_source_index d = Some ix_txt).
Proof.
  intros combined.
  set (sorted := sorted_desc doc_score combined).
  assert (P : Permutation sorted combined) by apply sorted_desc_perm.
  assert (S : StronglySorted (ranks_before doc_score) sorted) by apply sorted_desc_sorted.
  exists (firstn top_k sorted), (skipn top_k sorted).
  split; [exact (retrieve_and_rank_ok _ _ _ _ _ _ w _ _ Hp Ht)|].
  split; [rewrite length_firstn, (Permutation_length P); reflexivity|].
  split; [now apply firstn_sorted|].
  split; [rewrite firstn_skipn; symmetry; exact P|].
  split.
  - intros d d' Hd Hd'. rewrite <- (firstn_skipn top_k sorted) in S.
    exact (sorted_app_before doc_score _ _ S d d' Hd Hd').
  - intros d Hd. apply in_firstn in Hd.
    apply (Permutation_in _ P) in Hd. apply in_app_or in Hd as [Hd|Hd];
      apply in_map_iff in Hd as [d0 [<- _]]; [left|right]; reflexivity.
Qed.

(** Fusion is idempotent: fusing its own output gives it back. *)
Theorem fuse_idempotent (combined_results : list Passage) :
  fuse (fuse combined_results) = fuse combined_results.
Proof.
  set (f := fuse combined_results).
  assert (S : StronglySorted (ranks_before score) f)
    by apply firstn_sorted, filter_sorted, sorted_desc_sorted.
  assert (A : forall p, In p f -> above_threshold p = true).
  { intros p Hp. apply in_firstn in Hp. apply filter_In in Hp. apply Hp. }
  assert (L : length f <= 3) by apply firstn_le_length.
  unfold fuse at 1. rewrite sorted_desc_sorted_id by exact S.
  rewrite filter_all_true by exact A. apply firstn_all2. exact L.
Qed.

(** [format_docs] is the empty string exactly for no documents, and never
    blank otherwise; it contains every document's block, and its length
    is the blocks' lengths plus one separator between each two. *)
Theorem format_docs_shape (docs : list Document) :
  (format_docs docs = [] <-> docs = []) /\
  all_space (format_docs docs) = is_empty docs /\
  (forall d, In d docs -> contains (doc_block d) (format_docs docs) = true) /\
  length (format_docs docs) =
    list_sum (map (fun d => length (doc_block d)) docs)
    + (length docs - 1) * length document_separator.
Proof.
  split; [|split; [apply format_docs_all_space|split]].
  - split; [|intros ->; reflexivity]. intros H.
    pose proof (format_docs_all_space docs) as A. rewrite H in A.
    destruct docs; [reflexivity|discriminate].
  - intros d Hd. destruct docs as [|d0 ds]; [destruct Hd|].
    unfold format_docs. cbn [is_empty]. apply py_join_contains.
    apply in_map. exact Hd.
  - destruct docs as [|d0 ds]; [reflexivity|].
    unfold format_docs. cbn [is_empty]. rewrite py_join_length, map_map, length_map.
    reflexivity.
Qed.

(** The source list of [ask_question] has no duplicates, holds exactly
    the citations' titles, in citation order, and never an empty title. *)
Theorem collect_sources_dedup (citations : list Citation) :
  let sources := collect_sources citations in
  NoDup sources /\
  (forall t, In t sources <-> In t (map citation_title citations)) /\
  subseq sources (map citation_title citations) /\
  ~ In [] sources.
Proof.
  destruct (collect_sources_from_props [] citations) as [N [I [rest [E S]]]].
  cbn zeta in *. cbn [app] in E. unfold collect_sources. rewrite E.
  assert (I' : forall t, In t rest <-> In t (map citation_title citations)).
  { intros t. rewrite <- E, I. cbn [In]. tauto. }
  split; [rewrite <- E; apply N; constructor|].
  split; [exact I'|]. split; [exact S|].
  intros H. apply I' in H. apply in_map_iff in H as [c [Ec _]].
  exact (citation_title_nonempty c Ec).
Qed.

(** [str.split()]: every word is non-empty and free of whitespace, and
    the words put together are the input's non-whitespace characters. *)
Theorem py_split_words (s : text) :
  Forall (fun wd => wd <> [] /\ forallb nonspace wd = true) (py_split s) /\
  concat (py_split s) = filter nonspace s.
Proof. apply (py_split_aux_props [] s eq_refl). Qed.

(** [find_similar_faq] never raises and never changes the collection; it
    calls the encoder and at most the cache query; an answer it returns
    is the stored answer of the record the query returned first. *)
Theorem find_similar_faq_contract
    (encode : text -> Outcome (list Q)) (cos_sim : list Q -> list Q -> Q)
    (chroma_query : list Entry -> list Q -> Outcome (list Entry))
    (user_question : text) (w : World) :
  let r := find_similar_faq encode cos_sim chroma_query user_question w in
  (exists o, fst r = Ok o) /\
  store (snd r) = store w /\
  (calls (snd r) = calls w ++ [CallEncode] \/
   calls (snd r) = calls w ++ [CallEncode; CallCacheQuery]) /\
  (forall answer, fst r = Ok (Some answer) ->
     exists emb m rest, encode user_question = Ok emb /\
       chroma_query (store w) emb = Ok (m :: rest) /\ e_answer m = answer).
Proof.
  cbn zeta. unfold find_similar_faq, catch, bind, ext, cache_query, ret.
  destruct (encode user_question) as [emb|e] eqn:En.
  - cbn [store log]. destruct (chroma_query (store w) emb) as [[|m rest]|e] eqn:Qr.
    + split; [eexists; reflexivity|]. split; [reflexivity|].
      split; [right; cbn; now rewrite <- app_assoc|]. intros a H; discriminate.
    + cbn zeta.
      destruct (Qltb _ _ || Qltb _ _); [|destruct (Qle_bool _ _)];
        (split; [eexists; reflexivity|]); (split; [reflexivity|]);
        (split; [right; cbn; now rewrite <- app_assoc|]);
        intros a H; try discriminate.
      cbn [fst] in H. injection H as H. now exists emb, m, rest.
    + split; [eexists; reflexivity|]. split; [reflexivity|].
      split; [right; cbn; now rewrite <- app_assoc|]. intros a H; discriminate.
  - split; [eexists; reflexivity|]. split; [reflexivity|].
    split; [left; reflexivity|]. intros a H; discriminate.
Qed.

(** [add_faq] never raises.  [False] leaves the collection as it was;
    [True] means exactly one record, keyed by the question, was appended,
    and looking the question up afterwards returns that record alone. *)
Theorem add_faq_round_trip
    (encode : text -> Outcome (list Q))
    (chroma_add_error : list Entry -> Entry -> option Exc)
    (question answer : text) (w : World) :
  let r := add_faq encode chroma_add_error question answer w in
  (exists b, fst r = Ok b) /\
  (fst r = Ok false -> store (snd r) = store w) /\
  (fst r = Ok true ->
   exists emb,
     let e := {| e_id := question; e_question := question;
                 e_answer := answer; e_emb := emb |} in
     encode question = Ok emb /\
     store (snd r) = store w ++ [e] /\
     fst (cache_get question (snd r)) = Ok [e]).
Proof.
  destruct (add_faq_result encode chroma_add_error question answer w)
    as [[F [S _]]|[emb [F [En [NI S]]]]]; cbn zeta in *; rewrite F.
  - split; [eexists; reflexivity|]. split; [intros _; exact S|intros H; discriminate].
  - split; [eexists; reflexivity|]. split; [intros H; discriminate|].
    intros _. exists emb. split; [exact En|]. split; [exact S|].
    unfold cache_get. cbn [fst]. rewrite S, filter_app, filter_id_absent by exact NI.
    cbn [filter e_id]. destruct (text_eqb question question) eqn:Q; [reflexivity|].
    exfalso. assert (question = question) as H by reflexivity.
    apply text_eqb_true in H. congruence.
Qed.

(** When the encoder and the collection never fail, the script's loop
    leaves a record for every listed question and keeps every record that
    was there. *)
Theorem add_faqs_covers_questions
    (encode : text -> Outcome (list Q))
    (chroma_add_error : list Entry -> Entry -> option Exc)
    (faqs : list (text * text)) (w : World)
    (Henc : forall t, exists emb, encode t = Ok emb)
    (Hadd : forall st e, chroma_add_error st e = None) :
  forall q, In q (map fst faqs) \/ In q (map e_id (store w)) ->
  In q (map e_id (store (add_faqs encode chroma_add_error faqs w))).
Proof.
  revert w; induction faqs as [|[q' a] faqs IH]; intros w q Hq.
  - destruct Hq as [[]|Hq]. exact Hq.
  - cbn [add_faqs]. cbn [map fst In] in Hq.
    destruct Hq as [[<-|Hq]|Hq].
    + apply add_faqs_keeps.
      destruct (add_faq_result encode chroma_add_error q' a w)
        as [[_ [S [Hin|[[ex Ex]|[emb [ex [_ Ex]]]]]]]|[emb [_ [_ [_ S]]]]].
      * rewrite S. exact Hin.
      * destruct (Henc q') as [emb Em]. congruence.
      * rewrite Hadd in Ex. discriminate.
      * rewrite S, map_app. apply in_or_app. right. now left.
    + apply IH. now left.
    + apply IH. right.
      destruct (add_faq_step encode chroma_add_error q' a w) as [E|[e [_ [_ E]]]];
        rewrite E; [exact Hq|]. rewrite map_app. apply in_or_app. now left.
Qed.

(** When a retriever raises, or both find nothing, [generate_answer]
    returns the English "insufficient information" message for an ASCII
    question, without calling the model: the retrieval error is not
    reported. *)
Theorem generate_answer_without_documents
    (retriever_pdf retriever_text : text -> Outcome (list Document))
    (ix_doc ix_txt : string) (llm_chain : text -> text -> Outcome text)
    (thai_apology question : text) (w : World)
    (Hnone : (exists e, retriever_pdf question = Raise e) \/
             (exists e, retriever_text question = Raise e) \/
             (retriever_pdf question = Ok [] /\ retriever_text question = Ok [])) :
  fst (generate_answer retriever_pdf retriever_text ix_doc ix_txt llm_chain thai_apology
         question w) = Ok insufficient_info_en /\
  no_llm_call_since w
    (snd (generate_answer retriever_pdf retriever_text ix_doc ix_txt llm_chain
            thai_apology question w)).
Proof.
  destruct (retrieve_and_rank_empty retriever_pdf retriever_text ix_doc ix_txt
              question 5 w Hnone) as [w' [R N]].
  unfold generate_answer, catch, bind. rewrite R. cbn zeta.
  change (format_docs []) with (@nil ascii). cbn [py_strip rstrip lstrip rev is_empty].
  rewrite existsb_is_thai. split; [reflexivity|exact N].
Qed.

(** When both retrievers answer and at least one document comes back,
    the context is never blank: [generate_answer] calls the model once on
    the formatted top five documents and returns its text, or the error
    string if the call raises. *)
Theorem generate_answer_with_documents
    (retriever_pdf retriever_text : text -> Outcome (list Document))
    (ix_doc ix_txt : string) (llm_chain : text -> text -> Outcome text)
    (thai_apology question : text) (w : World) (dp dt : list Document)
    (Hp : retriever_pdf question = Ok dp) (Ht : retriever_text question = Ok dt)
    (Hne : dp ++ dt <> []) :
  let ranked := firstn 5 (sorted_desc doc_score
                  (map (set_source_index ix_doc) dp ++ map (set_source_index ix_txt) dt)) in
  ranked <> [] /\
  generate_answer retriever_pdf retriever_text ix_doc ix_txt llm_chain thai_apology
    question w =
  (match llm_chain (format_docs ranked) question with
   | Ok answer => Ok answer
   | Raise e => Ok (T "[Error][generate_answer] " ++ exc_str e)
   end,
   log CallLLM (log (CallRetrieve "text") (log (CallRetrieve "pdf") w))).
Proof.
  intros ranked.
  assert (NE : ranked <> []).
  { unfold ranked.
    set (combined := map (set_source_index ix_doc) dp ++ map (set_source_index ix_txt) dt).
    assert (L : length (sorted_desc doc_score combined) <> 0).
    { rewrite (Permutation_length (sorted_desc_perm doc_score combined)).
      unfold combined. rewrite length_app, !length_map, <- length_app.
      intros L. apply length_zero_iff_nil in L. contradiction. }
    destruct (sorted_desc doc_score combined); [contradiction|discriminate]. }
  split; [exact NE|].
  unfold generate_answer, catch, bind.
  rewrite (retrieve_and_rank_ok _ _ _ _ _ 5 w _ _ Hp Ht). fold ranked. cbn zeta.
  rewrite py_strip_empty_iff, format_docs_all_space.
  destruct ranked; [contradiction|]. cbn [is_empty]. unfold ext.
  destruct (llm_chain _ question); reflexivity.
Qed.

(** ** Witnesses *)

Lemma get_llm_answer_none_content_witness :
  get_llm_answer (T "What is RAG?") context_1 (fun _ _ => Ok None) empty_world =
  (Ok (VStr (T "Error generating answer: 'NoneType' object has no attribute 'strip'")),
   log CallLLM empty_world).
Proof.
  apply (get_llm_answer_none_content (T "What is RAG?") context_1 (fun _ _ => Ok None)
    empty_world).
  - vm_compute. reflexivity.
  - reflexivity.
Defined.

Lemma rag_pipeline_answers_from_fused_context_witness :
  rag_pipeline const_embedding (fun _ => Ok (index_A "content"))
    (fun _ => Ok (index_B "chunk")) (T "What is it?") echo_client empty_world
  = get_llm_answer (T "What is it?")
      (assemble_context (fuse ([passage (9 # 10) "passage A one";
                                passage (7 # 10) "passage A two"]
                               ++ [passage (3 # 10) "passage B one";
                                   passage (6 # 10) "passage B two"])))
      echo_client
      (log (CallSearch "pdf") (log (CallSearch "text") (log CallEmbedQuery empty_world))).
Proof.
  refine (proj1 (rag_pipeline_answers_from_fused_context const_embedding
    (fun _ => Ok (index_A "content")) (fun _ => Ok (index_B "chunk"))
    (T "What is it?") echo_client empty_world [1%Q] (index_A "content")
    (index_B "chunk") _ _ eq_refl eq_refl eq_refl _ _ _)).
  - intros w'. reflexivity.
  - intros w'. reflexivity.
  - vm_compute. discriminate.
Defined.

Lemma rag_pipeline_missing_field_witness :
  rag_pipeline const_embedding (fun _ => Ok (index_A "chunk"))
    (fun _ => Ok (index_B "chunk")) (T "What is it?") echo_client empty_world
  = (Raise (HTTPException 500 (T "Internal error: 'content'")),
     log (CallSearch "pdf") (log (CallSearch "text") (log CallEmbedQuery empty_world))).
Proof.
  apply (proj1 (rag_pipeline_missing_field const_embedding
    (fun _ => Ok (index_A "chunk")) (fun _ => Ok (index_B "chunk"))
    (T "What is it?") echo_client empty_world [1%Q] (index_A "chunk")
    (index_B "chunk") eq_refl eq_refl eq_refl)).
  apply Exists_cons_hd. reflexivity.
Defined.

Lemma retrieve_and_rank_top_k_witness :
  exists ranked,
    retrieve_and_rank (fun _ => Ok [doc "pdf one" (Some (3 # 10))])
      (fun _ => Ok [doc "text one" (Some (8 # 10)); doc "text two" None])
      "docs-index" "txt-index" (T "What is it?") 2 empty_world
    = (Ok ranked, log (CallRetrieve "text") (log (CallRetrieve "pdf") empty_world)) /\
    length ranked = 2.
Proof.
  destruct (retrieve_and_rank_top_k (fun _ => Ok [doc "pdf one" (Some (3 # 10))])
    (fun _ => Ok [doc "text one" (Some (8 # 10)); doc "text two" None])
    "docs-index" "txt-index" (T "What is it?") 2 empty_world
    [doc "pdf one" (Some (3 # 10))]
    [doc "text one" (Some (8 # 10)); doc "text two" None] eq_refl eq_refl)
    as [ranked [dropped [E [L _]]]].
  exists ranked. split; [exact E|]. rewrite L. reflexivity.
Defined.

Lemma add_faqs_covers_questions_witness :
  In (T "RAG") (map e_id (store (add_faqs (fun _ => Ok [1%Q]) (fun _ _ => None)
    [(T "How to care for jeans", T "Cold water");
     (T "RAG", T "Retrieval augmented generation")] jeans_world))).
Proof.
  apply (add_faqs_covers_questions (fun _ => Ok [1%Q]) (fun _ _ => None)
    [(T "How to care for jeans", T "Cold water");
     (T "RAG", T "Retrieval augmented generation")] jeans_world
    (fun t => ex_intro _ [1%Q] eq_refl) (fun _ _ => eq_refl)).
  left. right. left. reflexivity.
Defined.

Lemma generate_answer_without_documents_witness :
  fst (generate_answer (fun _ => Raise index_down)
         (fun _ => Ok [doc "text one" (Some (8 # 10))]) "docs-index" "txt-index"
         (fun _ _ => Ok (T "unused")) (T "unused") (T "What is RAG?") empty_world)
  = Ok insufficient_info_en.
Proof.
  apply (proj1 (generate_answer_without_documents (fun _ => Raise index_down)
    (fun _ => Ok [doc "text one" (Some (8 # 10))]) "docs-index" "txt-index"
    (fun _ _ => Ok (T "unused")) (T "unused") (T "What is RAG?") empty_world
    (or_introl (ex_intro _ index_down eq_refl)))).
Defined.

Lemma generate_answer_with_documents_witness :
  generate_answer (fun _ => Ok [doc "pdf one" (Some (3 # 10))]) (fun _ => Ok [])
    "docs-index" "txt-index" (fun _ _ => Ok (T "RAG combines search and generation."))
    (T "unused") (T "What is RAG?") empty_world
  = (Ok (T "RAG combines search and generation."),
     log CallLLM (log (CallRetrieve "text") (log (CallRetrieve "pdf") empty_world))).
Proof.
  exact (proj2 (generate_answer_with_documents (fun _ => Ok [doc "pdf one" (Some (3 # 10))])
    (fun _ => Ok []) "docs-index" "txt-index"
    (fun _ _ => Ok (T "RAG combines search and generation.")) (T "unused")
    (T "What is RAG?") empty_world [doc "pdf one" (Some (3 # 10))] [] eq_refl eq_refl
    ltac:(discriminate))).
Defined.
